(** * Table games engine (blackjack, roulette, baccarat)

    A shallow embedding of [TableGamesEngine] and the properties of its
    card model, scoring functions, round state and resolvers.

    Conventions.
    - A JS array is a [list] in index order; [push] appends at the end and
      [pop] removes the last element.
    - Card values, scores and wheel numbers are integers ([Z]); money
      amounts ([number] stakes, bets, balances, payouts) are rationals
      ([Q]), compared with [==].
    - [undefined] is [None]; a value that may be [undefined] is an [option].
    - An uncaught [TypeError] is the completion [Throws]; the model does not
      follow the engine after it. *)

From Stdlib Require Import ZArith QArith Qround List String Ascii Permutation Lia.
From stdpp Require Import gmap strings list fin_maps.

Open Scope Z_scope.

(** ** Cards *)

Inductive Suit := hearts | diamonds | clubs | spades.

(** The thirteen rank strings "A", "2", ..., "9", "T", "J", "Q", "K". *)
Inductive Rank := RA | R2 | R3 | R4 | R5 | R6 | R7 | R8 | R9 | RT | RJ | RQ | RK.

Record Card := mkCard { suit : Suit; rank : Rank; value : Z }.

#[global] Instance Suit_eq_dec : EqDecision Suit.
Proof. solve_decision. Defined.

#[global] Instance Rank_eq_dec : EqDecision Rank.
Proof. solve_decision. Defined.

#[global] Instance Card_eq_dec : EqDecision Card.
Proof. solve_decision. Defined.

(** [Array.prototype.includes] on an array of ranks. *)
Definition includes `{EqDecision T} (xs : list T) (x : T) : bool :=
  bool_decide (x ∈ xs).

(** [parseInt(rank)]: the digit ranks give their number; the letter ranks
    give NaN, for which the model has [None]. *)
Definition parseInt (r : Rank) : option Z :=
  match r with
  | R2 => Some 2 | R3 => Some 3 | R4 => Some 4 | R5 => Some 5
  | R6 => Some 6 | R7 => Some 7 | R8 => Some 8 | R9 => Some 9
  | RA | RT | RJ | RQ | RK => None
  end.

(** A [number] that is NaN where the source's conditional chain cannot reach
    it reads as 0; both users test every letter rank before [parseInt]. *)
Definition numberOf (n : option Z) : Z := default 0 n.

(** ** Deck *)

Definition suits : list Suit := [hearts; diamonds; clubs; spades].

Definition ranks : list Rank :=
  [RA; R2; R3; R4; R5; R6; R7; R8; R9; RT; RJ; RQ; RK].

(** The [value] computed in the inner loop of [createDeck]. *)
Definition deckValue (r : Rank) : Z :=
  if bool_decide (r = RA) then 11
  else if includes [RJ; RQ; RK] r then 10
  else if bool_decide (r = RT) then 10
  else numberOf (parseInt r).

(** The two nested loops of [createDeck], before the shuffle: suits outside,
    ranks inside, one [push] each. *)
Definition orderedDeck : list Card :=
  flat_map (fun s => map (fun r => mkCard s r (deckValue r)) ranks) suits.

(** The inherited [shuffleArray] is the engine's source of randomness for
    cards; a call of the engine is given the shuffle it happens to run. *)
Definition Shuffle := list Card -> list Card.

Definition IsShuffle (shuffleArray : Shuffle) : Prop :=
  forall l, Permutation l (shuffleArray l).

Definition createDeck (shuffleArray : Shuffle) : list Card :=
  shuffleArray orderedDeck.

(** ** Scoring *)

(** The [while (score > 21 && aces > 0)] loop of [calculateBlackjackScore]. *)
Fixpoint adjustAces (score : Z) (aces : nat) : Z :=
  match aces with
  | O => score
  | S aces' => if 21 <? score then adjustAces (score - 10) aces' else score
  end.

Definition calculateBlackjackScore (hand : list Card) : Z :=
  let '(score, aces) :=
    fold_left
      (fun '(score, aces) card =>
         if bool_decide (rank card = RA) then (score + 11, S aces)
         else (score + value card, aces))
      hand (0, O) in
  adjustAces score aces.

Definition calculateBaccaratValue (cards : list Card) : Z :=
  let total :=
    fold_left
      (fun sum card =>
         let value :=
           if bool_decide (rank card = RA) then 1
           else if includes [RJ; RQ; RK] (rank card) then 0
           else if bool_decide (rank card = RT) then 0
           else numberOf (parseInt (rank card)) in
         sum + value)
      cards 0 in
  Z.rem total 10.

(** ** Roulette wheel *)

Inductive Color := red | black | green.

#[global] Instance Color_eq_dec : EqDecision Color.
Proof. solve_decision. Defined.

Record RouletteResult := mkRouletteResult {
  number : Z;
  color : Color;
  isOdd : bool;
  dozen : Z;
  column : Z
}.

(** The thirteen strings of [RouletteBet.type]; "dozen", "column", "red" and
    "black" carry the suffix [Bet], their names being taken by the fields and
    colours of the result. *)
Inductive BetType :=
  | straight | split | street | corner | line | dozenBet | columnBet
  | redBet | blackBet | odd | even | low | high.

#[global] Instance BetType_eq_dec : EqDecision BetType.
Proof. solve_decision. Defined.

Record RouletteBet := mkRouletteBet {
  betType : BetType;
  numbers : list Z;
  amount : Q;
  payout : Q
}.

Definition redNumbers : list Z :=
  [1; 3; 5; 7; 9; 12; 14; 16; 18; 19; 21; 23; 25; 27; 30; 32; 34; 36].

(** [number % 2], [(number - 1) % 3]: the JS remainder is [Z.rem];
    [Math.ceil(number / 12)] is the ceiling of the rational quotient. *)
Definition generateRouletteResult (number : Z) : RouletteResult :=
  {| number := number;
     color := if bool_decide (number = 0) then green
              else if includes redNumbers number then red else black;
     isOdd := bool_decide (Z.rem number 2 = 1);
     dozen := if bool_decide (number = 0) then 0
              else Qceiling (inject_Z number / 12);
     column := if bool_decide (number = 0) then 0
               else Z.rem (number - 1) 3 + 1 |}.

(** [bet.numbers[0] === n]: [undefined] on an empty array, equal to no number. *)
Definition firstIs (numbers : list Z) (n : Z) : bool :=
  match numbers with
  | [] => false
  | n0 :: _ => bool_decide (n0 = n)
  end.

Definition checkRouletteBet (bet : RouletteBet) (result : RouletteResult) : bool :=
  match betType bet with
  | straight => includes (numbers bet) (number result)
  | redBet => bool_decide (color result = red)
  | blackBet => bool_decide (color result = black)
  | odd => isOdd result && negb (bool_decide (number result = 0))
  | even => negb (isOdd result) && negb (bool_decide (number result = 0))
  | low => (1 <=? number result) && (number result <=? 18)
  | high => (19 <=? number result) && (number result <=? 36)
  | dozenBet => firstIs (numbers bet) (dozen result)
  | columnBet => firstIs (numbers bet) (column result)
  | split | street | corner | line => false
  end.

(** ** Tables *)

Inductive GameType := blackjack | roulette | baccarat.

#[global] Instance GameType_eq_dec : EqDecision GameType.
Proof. solve_decision. Defined.

Record Stakes := mkStakes { gc : Q; sc : Q }.

Record TableGame := mkTable {
  tableId : string;
  type : GameType;
  name : string;
  minBet : Stakes;
  maxBet : Stakes;
  maxPlayers : Z;
  houseEdge : Q
}.

(** [initializeTables]: the three tables, entered in the map by their id.
    Nothing else writes [this.tables]. *)
Definition initializeTables : gmap string TableGame :=
  foldl (fun m table => <[tableId table := table]> m) ∅
    [ mkTable "blackjack-1" blackjack "Classic Blackjack"
        (mkStakes 5 0.05) (mkStakes 500 5.0) 6 0.5;
      mkTable "roulette-1" roulette "European Roulette"
        (mkStakes 1 0.01) (mkStakes 100 1.0) 12 2.7;
      mkTable "baccarat-1" baccarat "Punto Banco"
        (mkStakes 10 0.1) (mkStakes 1000 10.0) 8 1.06 ].

Definition tables : gmap string TableGame := initializeTables.

(** ** Players and the balance gateway *)

Record Balance := mkBalance { goldCoins : Q; sweepCoins : Q }.

(** The fields of [TablePlayer] the engine reads or writes. [currentBet] is
    [undefined] until a bet sets it. *)
Record TablePlayer := mkPlayer {
  balance : Balance;
  currentBet : option Q
}.

Inductive Currency := GC | SC.

Definition credit (amount : Q) (currency : Currency) (p : TablePlayer) : TablePlayer :=
  match currency with
  | GC => mkPlayer (mkBalance (goldCoins (balance p) + amount) (sweepCoins (balance p)))
                   (currentBet p)
  | SC => mkPlayer (mkBalance (goldCoins (balance p)) (sweepCoins (balance p) + amount))
                   (currentBet p)
  end.

(** Modelled from the spec: [addBalance] of the base class [GameEngine],
    which is not among the sources. "Balance credit:
    addBalance(playerId, amount, currency)": the amount is added to that
    ledger of that player; an unknown player has no ledger to credit. *)
Definition addBalance (playerId : string) (amount : Q) (currency : Currency)
    (players : gmap string TablePlayer) : gmap string TablePlayer :=
  alter (credit amount currency) playerId players.

(** Modelled from the spec: [getPlayer] of the base class [GameEngine],
    which is not among the sources. "Player/Balance lookup:
    getPlayer(playerId) -> Player | absent": the lookup in the player
    store; the object it returns is the stored one. *)
Definition getPlayer (players : gmap string TablePlayer) (playerId : string)
    : option TablePlayer :=
  players !! playerId.

(** Comparisons of [number]s. *)
Definition Qltb (x y : Q) : bool := negb (Qle_bool y x).

(** [canAffordWager]; a comparison with an [undefined] amount is false. *)
Definition canAffordWager (players : gmap string TablePlayer)
    (playerId : string) (amount : option Q) (currency : Currency) : bool :=
  match getPlayer players playerId with
  | None => false
  | Some player =>
      match amount with
      | None => false
      | Some a =>
          match currency with
          | GC => Qle_bool a (goldCoins (balance player))
          | SC => Qle_bool a (sweepCoins (balance player))
          end
      end
  end.

(** ** Completions *)

Inductive JsError := TypeError.

(** How a call ends: with a value, or with an uncaught exception. *)
Inductive Completion (A : Type) :=
  | Returns (a : A)
  | Throws (e : JsError).
Arguments Returns {A} a.
Arguments Throws {A} e.

#[global] Instance Completion_ret : MRet Completion := fun _ a => Returns a.
#[global] Instance Completion_bind : MBind Completion := fun _ _ k c =>
  match c with
  | Returns a => k a
  | Throws e => Throws e
  end.

(** ** Hands and the deck *)

(** An element of a hand: a card, or the [undefined] that [deck.pop()!]
    gives on an empty deck. *)
Abbreviation JsCard := (option Card).

(** [deck.pop()]: the last element and the shortened array; on an empty
    array [undefined], and the array stays empty. *)
Definition pop (deck : list Card) : JsCard * list Card :=
  (last deck, removelast deck).

(** The cards of a hand when none of its elements is [undefined]. *)
Fixpoint definedCards (hand : list JsCard) : option (list Card) :=
  match hand with
  | [] => Some []
  | Some c :: hand' => cons c <$> definedCards hand'
  | None :: _ => None
  end.

(** A scoring function applied to an array the engine built with [pop()!]:
    the loop reads [card.rank] of every element, which raises [TypeError] on
    [undefined]. *)
Definition scoring (f : list Card -> Z) (hand : list JsCard) : Completion Z :=
  match definedCards hand with
  | Some cards => Returns (f cards)
  | None => Throws TypeError
  end.

(** The same on a hand that may itself be [undefined] (a failed map lookup):
    [for (const card of undefined)] raises [TypeError]. *)
Definition scoringLookup (f : list Card -> Z) (hand : option (list JsCard))
    : Completion Z :=
  match hand with
  | Some h => scoring f h
  | None => Throws TypeError
  end.

(** ** Blackjack round state *)

Inductive Stage := betting | playing.

Record GameState := mkGameState {
  deck : list Card;
  dealerHand : list JsCard;
  playerHands : gmap string (list JsCard);
  bets : gmap string Q;
  stage : Stage
}.

(** The engine's mutable fields: the per-table state store [gameStates] and
    the player store of the base class, read by [getPlayer]. *)
Record Engine := mkEngine {
  gameStates : gmap string GameState;
  players : gmap string TablePlayer
}.

(** The state of a new engine with the given players registered. *)
Definition newEngine (ps : gmap string TablePlayer) : Engine :=
  mkEngine ∅ ps.

(** What [playBlackjack] returns. *)
Inductive BlackjackResponse :=
  | Failure (error : string)
  | Dealt (playerHand : list JsCard) (dealerCard : JsCard) (playerScore : Z)
  | Hit (hand : list JsCard) (score : Z) (result : option string)
  | Resolved (result : string) (playerScore dealerScore : Z)
             (dealerHand : list JsCard) (payout : option Q).

Definition success (r : BlackjackResponse) : bool :=
  match r with
  | Failure _ => false
  | _ => true
  end.

(** The dealer's loop [while (score(dealerHand) < 17) dealerHand.push(deck.pop()!)].
    [n] counts the cards left in the deck. On an empty deck [pop] pushes
    [undefined] and the loop test that follows raises [TypeError]. *)
Fixpoint dealerLoop (n : nat) (dealerHand : list JsCard) (deck : list Card)
    : Completion (list JsCard * list Card) :=
  score ← scoring calculateBlackjackScore dealerHand;
  if score <? 17 then
    match n with
    | O => Throws TypeError
    | S n' =>
        let '(card, deck') := pop deck in
        dealerLoop n' (dealerHand ++ [card]) deck'
    end
  else Returns (dealerHand, deck).

(** [resolveBlackjackHand]. The payout is [None] where the source computes it
    from a bet that is [undefined] (NaN for [bet * 2], [undefined] for [bet]),
    which [payout > 0] rejects. *)
Definition resolveBlackjackHand (playerId : string) (gameState : GameState)
    (players : gmap string TablePlayer)
    : Completion (BlackjackResponse * GameState * gmap string TablePlayer) :=
  let playerHand := playerHands gameState !! playerId in
  '(dealerHand', deck') ←
    dealerLoop (length (deck gameState)) (dealerHand gameState) (deck gameState);
  playerScore ← scoringLookup calculateBlackjackScore playerHand;
  dealerScore ← scoring calculateBlackjackScore dealerHand';
  let bet := bets gameState !! playerId in
  let '(result, payout) :=
    if 21 <? playerScore then ("bust"%string, Some 0%Q)
    else if 21 <? dealerScore then ("win"%string, (fun b => b * 2)%Q <$> bet)
    else if dealerScore <? playerScore then ("win"%string, (fun b => b * 2)%Q <$> bet)
    else if playerScore <? dealerScore then ("lose"%string, Some 0%Q)
    else ("push"%string, bet) in
  let players' :=
    match payout with
    | Some p => if Qltb 0 p then addBalance playerId p GC players else players
    | None => players
    end in
  let gameState' :=
    mkGameState deck' dealerHand' (playerHands gameState) (bets gameState)
                (stage gameState) in
  Returns (Resolved result playerScore dealerScore dealerHand' payout,
           gameState', players').

(** ** Blackjack *)

(** The object built by [playBlackjack] when the store has none for the
    table. *)
Definition freshState (shuffleArray : Shuffle) : GameState :=
  mkGameState (createDeck shuffleArray) [] ∅ ∅ betting.

(** [!bet || bet < min || bet > max]: [!bet] holds of [undefined] and of 0. *)
Definition invalidBet (bet : option Q) (table : TableGame) : bool :=
  match bet with
  | None => true
  | Some b =>
      Qeq_bool b 0 || Qltb b (gc (minBet table)) || Qltb (gc (maxBet table)) b
  end.

(** [playBlackjack]. [gameState] is the object the store holds for the
    table, and then every mutation of it is seen through the store, or a new
    object that only this call refers to: the source never enters it in
    [this.gameStates], and its mutations end with the call. [keep] is the
    store after the call mutated [gameState]. The player object is the one
    the player store holds, so assigning [currentBet] updates the store. *)
Definition playBlackjack (shuffleArray : Shuffle) (e : Engine)
    (playerId tableId action : string) (bet : option Q)
    : Completion (BlackjackResponse * Engine) :=
  match tables !! tableId with
  | None => Returns (Failure "Invalid blackjack table", e)
  | Some table =>
  if negb (bool_decide (type table = blackjack))
  then Returns (Failure "Invalid blackjack table", e) else
  let stored := gameStates e !! tableId in
  let gameState := default (freshState shuffleArray) stored in
  let keep (gs : GameState) : gmap string GameState :=
    match stored with
    | Some _ => <[tableId := gs]> (gameStates e)
    | None => gameStates e
    end in
  match getPlayer (players e) playerId with
  | None => Returns (Failure "Player not found", e)
  | Some player =>
  if String.eqb action "bet" then
    if invalidBet bet table then Returns (Failure "Invalid bet amount", e) else
    let players' := <[playerId := mkPlayer (balance player) bet]> (players e) in
    let bets' :=
      match bet with
      | Some b => <[playerId := b]> (bets gameState)
      | None => bets gameState
      end in
    let '(p1, deck1) := pop (deck gameState) in
    let '(p2, deck2) := pop deck1 in
    let '(d1, deck3) := pop deck2 in
    let '(d2, deck4) := pop deck3 in
    let playerHand := [p1; p2] in
    let dealerHand := [d1; d2] in
    let gameState' :=
      mkGameState deck4 dealerHand
        (<[playerId := playerHand]> (playerHands gameState)) bets' playing in
    playerScore ← scoring calculateBlackjackScore playerHand;
    Returns (Dealt playerHand d1 playerScore,
             mkEngine (keep gameState') players')
  else if String.eqb action "hit" then
    match playerHands gameState !! playerId with
    | None => Returns (Failure "No active hand", e)
    | Some hand =>
        let '(card, deck') := pop (deck gameState) in
        let hand' := hand ++ [card] in
        let gameState' :=
          mkGameState deck' (dealerHand gameState)
            (<[playerId := hand']> (playerHands gameState))
            (bets gameState) (stage gameState) in
        score ← scoring calculateBlackjackScore hand';
        Returns (Hit hand' score (if 21 <? score then Some "bust"%string else None),
                 mkEngine (keep gameState') (players e))
    end
  else if String.eqb action "stand" then
    '(response, gameState', players') ←
      resolveBlackjackHand playerId gameState (players e);
    Returns (response, mkEngine (keep gameState') players')
  else if String.eqb action "double" then
    if negb (canAffordWager (players e) playerId (currentBet player) GC)
    then Returns (Failure "Insufficient funds to double", e) else
    match playerHands gameState !! playerId with
    | None => Returns (Failure "No active hand", e)
    | Some doubleHand =>
        let players1 :=
          <[playerId := mkPlayer (balance player)
                          ((fun b => b * 2)%Q <$> currentBet player)]> (players e) in
        let '(card, deck') := pop (deck gameState) in
        let gameState1 :=
          mkGameState deck' (dealerHand gameState)
            (<[playerId := doubleHand ++ [card]]> (playerHands gameState))
            (bets gameState) (stage gameState) in
        '(response, gameState', players') ←
          resolveBlackjackHand playerId gameState1 players1;
        Returns (response, mkEngine (keep gameState') players')
    end
  else Returns (Failure "Invalid action", e)
  end
  end.

(** ** Roulette *)

Record BetResult := mkBetResult {
  br_type : BetType;
  br_amount : Q;
  isWin : bool;
  br_payout : Q
}.

Inductive RouletteResponse :=
  | RouletteFailure (error : string)
  | RouletteOutcome (result : RouletteResult) (betResults : list BetResult)
                    (totalPayout : Q).

(** [playRoulette]; [randomNumber] is the value of
    [Math.floor(Math.random() * 37)] in this call. *)
Definition playRoulette (randomNumber : Z) (e : Engine)
    (playerId tableId : string) (bets : list RouletteBet)
    : RouletteResponse * Engine :=
  match tables !! tableId with
  | None => (RouletteFailure "Invalid roulette table", e)
  | Some table =>
  if negb (bool_decide (type table = roulette))
  then (RouletteFailure "Invalid roulette table", e) else
  let result := generateRouletteResult randomNumber in
  let '(totalPayout, betResults) :=
    fold_left
      (fun '(totalPayout, betResults) bet =>
         let isWin := checkRouletteBet bet result in
         let payout := if isWin then (amount bet * payout bet)%Q else 0%Q in
         ((totalPayout + payout)%Q,
          betResults ++ [mkBetResult (betType bet) (amount bet) isWin payout]))
      bets (0%Q, []) in
  let players' :=
    if Qltb 0 totalPayout then addBalance playerId totalPayout GC (players e)
    else players e in
  (RouletteOutcome result betResults totalPayout,
   mkEngine (gameStates e) players')
  end.

(** ** Baccarat *)

Inductive Side := player | banker | tie.

#[global] Instance Side_eq_dec : EqDecision Side.
Proof. solve_decision. Defined.

Record BaccaratHand := mkBaccaratHand {
  cards : list JsCard;
  handValue : Z;
  isNatural : bool
}.

Record BaccaratResult := mkBaccaratResult {
  playerHand : BaccaratHand;
  bankerHand : BaccaratHand;
  winner : Side
}.

Inductive BaccaratResponse :=
  | BaccaratFailure (error : string)
  | BaccaratOutcome (result : BaccaratResult) (payout : Q) (betType : Side)
                    (amount : Q).

(** The object literal [rules] of [shouldBankerDrawThird]. *)
Definition rules : gmap Z (list Z) :=
  <[3 := [0; 1; 2; 3; 4; 5; 6; 7; 9]]>
    (<[4 := [2; 3; 4; 5; 6; 7]]>
       (<[5 := [4; 5; 6; 7]]>
          (<[6 := [6; 7]]> ∅))).

Definition shouldBankerDrawThird (bankerValue playerThirdCard : Z) : bool :=
  if 7 <=? bankerValue then false
  else if bankerValue <=? 2 then true
  else match rules !! bankerValue with
       | Some drawOn => includes drawOn playerThirdCard
       | None => false
       end.

(** The third-card block of [playBaccarat]: from the two-card hands, their
    values and the rest of the deck to the final hands and values. *)
Definition thirdCards (playerCards bankerCards : list JsCard)
    (playerValue bankerValue : Z) (deck : list Card)
    : Completion (list JsCard * Z * list JsCard * Z) :=
  let playerNatural := 8 <=? playerValue in
  let bankerNatural := 8 <=? bankerValue in
  if negb playerNatural && negb bankerNatural then
    if playerValue <=? 5 then
      let '(thirdCard, deck1) := pop deck in
      let playerCards' := playerCards ++ [thirdCard] in
      playerValue' ← scoring calculateBaccaratValue playerCards';
      match thirdCard with
      | None => Throws TypeError
      | Some third =>
          if shouldBankerDrawThird bankerValue (value third) then
            let '(card, _) := pop deck1 in
            let bankerCards' := bankerCards ++ [card] in
            bankerValue' ← scoring calculateBaccaratValue bankerCards';
            Returns (playerCards', playerValue', bankerCards', bankerValue')
          else Returns (playerCards', playerValue', bankerCards, bankerValue)
      end
    else if bankerValue <=? 5 then
      let '(card, _) := pop deck in
      let bankerCards' := bankerCards ++ [card] in
      bankerValue' ← scoring calculateBaccaratValue bankerCards';
      Returns (playerCards, playerValue, bankerCards', bankerValue')
    else Returns (playerCards, playerValue, bankerCards, bankerValue)
  else Returns (playerCards, playerValue, bankerCards, bankerValue).

Definition playBaccarat (shuffleArray : Shuffle) (e : Engine)
    (playerId tableId : string) (betType : Side) (amount : Q)
    : Completion (BaccaratResponse * Engine) :=
  match tables !! tableId with
  | None => Returns (BaccaratFailure "Invalid baccarat table", e)
  | Some table =>
  if negb (bool_decide (type table = baccarat))
  then Returns (BaccaratFailure "Invalid baccarat table", e) else
  let deck := createDeck shuffleArray in
  let '(p1, deck1) := pop deck in
  let '(p2, deck2) := pop deck1 in
  let '(b1, deck3) := pop deck2 in
  let '(b2, deck4) := pop deck3 in
  let playerCards := [p1; p2] in
  let bankerCards := [b1; b2] in
  playerValue ← scoring calculateBaccaratValue playerCards;
  bankerValue ← scoring calculateBaccaratValue bankerCards;
  let playerNatural := 8 <=? playerValue in
  let bankerNatural := 8 <=? bankerValue in
  '(playerCards', playerValue', bankerCards', bankerValue') ←
    thirdCards playerCards bankerCards playerValue bankerValue deck4;
  let winner :=
    if bankerValue' <? playerValue' then player
    else if playerValue' <? bankerValue' then banker
    else tie in
  let payout :=
    if bool_decide (betType = winner) then
      match betType with
      | player => (amount * 2)%Q
      | banker => (amount * 1.95)%Q
      | tie => (amount * 9)%Q
      end
    else 0%Q in
  let players' :=
    if Qltb 0 payout then addBalance playerId payout GC (players e)
    else players e in
  let result :=
    mkBaccaratResult
      (mkBaccaratHand playerCards' playerValue' playerNatural)
      (mkBaccaratHand bankerCards' bankerValue' bankerNatural)
      winner in
  Returns (BaccaratOutcome result payout betType amount,
           mkEngine (gameStates e) players')
  end.

(** * Vocabulary of the properties *)

(** The blackjack points of a rank with the ace counted high. *)
Definition blackjackPoints (r : Rank) : Z :=
  match r with
  | RA => 11
  | RT | RJ | RQ | RK => 10
  | R2 => 2 | R3 => 3 | R4 => 4 | R5 => 5 | R6 => 6 | R7 => 7 | R8 => 8 | R9 => 9
  end.

(** The baccarat points of a rank. *)
Definition baccaratPoints (r : Rank) : Z :=
  match r with
  | RA => 1
  | RT | RJ | RQ | RK => 0
  | R2 => 2 | R3 => 3 | R4 => 4 | R5 => 5 | R6 => 6 | R7 => 7 | R8 => 8 | R9 => 9
  end.

Definition isAce (c : Card) : bool := bool_decide (rank c = RA).

Fixpoint aceCount (hand : list Card) : nat :=
  match hand with
  | [] => O
  | c :: hand' => if isAce c then S (aceCount hand') else aceCount hand'
  end.

(** The total of a hand with every ace at 11. *)
Definition highTotal (hand : list Card) : Z :=
  foldr (fun c acc => blackjackPoints (rank c) + acc) 0 hand.

(** Every total a hand can make, each ace being 11 or 1. *)
Fixpoint totals (hand : list Card) : list Z :=
  match hand with
  | [] => [0]
  | c :: hand' =>
      if isAce c
      then map (Z.add 11) (totals hand') ++ map (Z.add 1) (totals hand')
      else map (Z.add (blackjackPoints (rank c))) (totals hand')
  end.

(** One of the 52 cards [createDeck] builds. *)
Definition deckCard (c : Card) : Prop := c ∈ orderedDeck.

Definition suitRank (c : Card) : Suit * Rank := (suit c, rank c).

(** The entry of [betResults] for one bet on a given wheel result. *)
Definition betResultOf (result : RouletteResult) (bet : RouletteBet) : BetResult :=
  let isWin := checkRouletteBet bet result in
  mkBetResult (betType bet) (amount bet) isWin
    (if isWin then (amount bet * payout bet)%Q else 0%Q).

(** The bet types [checkRouletteBet] has no case for. *)
Definition neverWins (t : BetType) : Prop := t ∈ [split; street; corner; line].

(** The body of the loop over the bets in [playRoulette]. *)
Definition rouletteStep (result : RouletteResult)
    : Q * list BetResult -> RouletteBet -> Q * list BetResult :=
  fun '(totalPayout, betResults) bet =>
    let isWin := checkRouletteBet bet result in
    let payout := if isWin then (amount bet * payout bet)%Q else 0%Q in
    ((totalPayout + payout)%Q,
     betResults ++ [mkBetResult (betType bet) (amount bet) isWin payout]).

(** ** Concrete inputs *)

(** A player with 1000 gold coins who has not bet yet, and an engine that
    has just been constructed with this player registered. *)
Definition alice : TablePlayer := mkPlayer (mkBalance 1000 0) None.

Definition lobby : Engine := newEngine {[ "alice"%string := alice ]}.

(** A round in play: the dealer holds 9 and 7, the player king and queen
    for a bet of 10, and the deck is full. *)
Definition sixteenAgainstTwenty : GameState :=
  mkGameState orderedDeck
    (Some <$> [mkCard hearts R9 9; mkCard diamonds R7 7])
    {[ "alice"%string := Some <$> [mkCard hearts RK 10; mkCard hearts RQ 10] ]}
    {[ "alice"%string := 10%Q ]}
    playing.

(** The three tables of [initializeTables]. *)
Definition blackjackTable : TableGame :=
  mkTable "blackjack-1" blackjack "Classic Blackjack"
    (mkStakes 5 0.05) (mkStakes 500 5.0) 6 0.5.

Definition rouletteTable : TableGame :=
  mkTable "roulette-1" roulette "European Roulette"
    (mkStakes 1 0.01) (mkStakes 100 1.0) 12 2.7.

Definition baccaratTable : TableGame :=
  mkTable "baccarat-1" baccarat "Punto Banco"
    (mkStakes 10 0.1) (mkStakes 1000 10.0) 8 1.06.

(** A shuffle that leaves six chosen cards at the end of the array, in the
    order of the deck: 5 of hearts, king of diamonds, ace and 2 of clubs,
    2 and 3 of spades. [pop] deals the 3 and 2 of spades to the player, the
    2 and ace of clubs to the banker, and the king is the player's third
    card. *)
Definition stackedTop : list Card :=
  [mkCard hearts R5 5; mkCard diamonds RK 10; mkCard clubs RA 11;
   mkCard clubs R2 2; mkCard spades R2 2; mkCard spades R3 3].

Definition stackedShuffle : Shuffle := fun l =>
  filter (fun c : Card => c ∉ stackedTop) l
  ++ filter (fun c : Card => ~ (c ∉ stackedTop)) l.

(** * The rest of the engine *)

(** ** Table catalogue *)

(** [getTables]: [Array.from(this.tables.values())], the tables held by the
    map. A JS Map lists its values in insertion order; the finite map has an
    order of its own, so what is stated of this list does not depend on the
    order. *)
Definition getTables : list TableGame := (map_to_list tables).*2.

Definition getTable (tid : string) : option TableGame := tables !! tid.

(** What [joinTable] returns: [{ success: true }] or
    [{ success: false, error }]. *)
Inductive JoinResult :=
  | Joined
  | JoinFailure (error : string).

(** [joinTable] reads the catalogue and the player store and writes
    nothing. *)
Definition joinTable (e : Engine) (playerId tid : string) : JoinResult :=
  match tables !! tid with
  | None => JoinFailure "Table not found"
  | Some _ =>
      match getPlayer (players e) playerId with
      | None => JoinFailure "Player not found"
      | Some _ => Joined
      end
  end.

(** [getGameState(playerId?)]: the tables, and under [gameStates] the entry
    of the state store whose key is the player id; [undefined] when the
    argument is missing or the empty string, which are falsy. *)
Definition getGameState (e : Engine) (playerId : option string)
    : list TableGame * option GameState :=
  (getTables,
   match playerId with
   | Some id => if bool_decide (id = ""%string) then None else gameStates e !! id
   | None => None
   end).

(** ** Dispatch *)

(** The [action] object of [processAction] and [validateAction], with the
    fields the three games read from it. *)
Record Action := mkAction {
  a_gameType : string;
  a_tableId : string;
  a_action : string;
  a_bet : option Q;
  a_bets : list RouletteBet;
  a_betType : Side;
  a_amount : Q
}.

Inductive ActionResponse :=
  | BlackjackReply (r : BlackjackResponse)
  | RouletteReply (r : RouletteResponse)
  | BaccaratReply (r : BaccaratResponse)
  | ActionFailure (error : string).

(** [processAction]; the shuffle and the wheel number are those of the game
    that is called. *)
Definition processAction (shuffleArray : Shuffle) (randomNumber : Z)
    (e : Engine) (playerId : string) (action : Action)
    : Completion (ActionResponse * Engine) :=
  if String.eqb (a_gameType action) "blackjack" then
    '(r, e') ← playBlackjack shuffleArray e playerId (a_tableId action)
                 (a_action action) (a_bet action);
    Returns (BlackjackReply r, e')
  else if String.eqb (a_gameType action) "roulette" then
    let '(r, e') := playRoulette randomNumber e playerId (a_tableId action)
                      (a_bets action) in
    Returns (RouletteReply r, e')
  else if String.eqb (a_gameType action) "baccarat" then
    '(r, e') ← playBaccarat shuffleArray e playerId (a_tableId action)
                 (a_betType action) (a_amount action);
    Returns (BaccaratReply r, e')
  else Returns (ActionFailure "Unknown game type", e).

Definition validateAction (playerId : string) (action : Action) : bool :=
  includes ["blackjack"; "roulette"; "baccarat"]%string (a_gameType action).

(** ** Reachable engines *)

(** The engine states that calls of the three games lead to from a new
    engine. The base class may change the player store between calls in any
    way; [gameStates] is a private field of this class. *)
Inductive reachable : Engine -> Prop :=
  | reach_new ps : reachable (newEngine ps)
  | reach_players e ps : reachable e -> reachable (mkEngine (gameStates e) ps)
  | reach_blackjack e shuffleArray playerId tid action bet response e' :
      reachable e ->
      playBlackjack shuffleArray e playerId tid action bet = Returns (response, e') ->
      reachable e'
  | reach_roulette e n playerId tid bets response e' :
      reachable e ->
      playRoulette n e playerId tid bets = (response, e') ->
      reachable e'
  | reach_baccarat e shuffleArray playerId tid side stake response e' :
      reachable e ->
      playBaccarat shuffleArray e playerId tid side stake = Returns (response, e') ->
      reachable e'.

(** ** Thumbnail file names *)

Definition ALLOWED_FORMATS : list string :=
  ["image/jpeg"; "image/png"; "image/webp"; "image/gif"]%string.

Definition getExtensionFromContentType (contentType : string) : string :=
  if String.eqb contentType "image/jpeg" then ".jpg"
  else if String.eqb contentType "image/png" then ".png"
  else if String.eqb contentType "image/webp" then ".webp"
  else if String.eqb contentType "image/gif" then ".gif"
  else ".jpg".

(** The name [downloadThumbnail] saves a file under: the cache key followed
    by the extension. *)
Definition thumbnailFilename (cacheKey contentType : string) : string :=
  (cacheKey ++ getExtensionFromContentType contentType)%string.

(** [s.includes(sub)] on strings: [sub] starts at some position of [s]. *)
Fixpoint includesString (sub s : string) : bool :=
  String.prefix sub s ||
  match s with
  | EmptyString => false
  | String _ s' => includesString sub s'
  end.

(** The test of [serveThumbnail] that rejects a file name:
    [!filename || filename.includes("..") || filename.includes("/")]. *)
Definition invalidFilename (filename : string) : bool :=
  String.eqb filename "" || includesString ".." filename
  || includesString "/" filename.

(** [file.split(".")[0]]: the part of the name before its first dot, the
    whole name when it has none. *)
Fixpoint cacheKeyOf (file : string) : string :=
  match file with
  | EmptyString => EmptyString
  | String c file' =>
      if Ascii.eqb c "."%char then EmptyString else String c (cacheKeyOf file')
  end.

(** ** Vocabulary of the further properties *)

(** The points a card adds to a blackjack hand at most. *)
Definition tenValued (c : Card) : Prop := rank c ∈ [RT; RJ; RQ; RK].

(** The numbers of the wheel other than 0. *)
Definition wheelNumbers : list Z := seqZ 1 36.


(** The gold coins of a player in a store, when the player is in it. *)
Definition goldOf (ps : gmap string TablePlayer) (playerId : string) : option Q :=
  (fun p => goldCoins (balance p)) <$> ps !! playerId.

(** A string of hexadecimal digits, as the [digest("hex")] of a hash is. *)
Fixpoint hexString (s : string) : bool :=
  match s with
  | EmptyString => true
  | String c s' =>
      existsb (Ascii.eqb c) (list_ascii_of_string "0123456789abcdef") && hexString s'
  end.

(** * Properties *)

(** A closed decidable proposition, settled by evaluation. *)
Ltac by_decision := apply (bool_decide_unpack _); vm_compute; exact I.

(** ** Scoring *)

Example score_two_aces :
  calculateBlackjackScore [mkCard hearts RA 11; mkCard spades RA 11] = 12.
Proof. reflexivity. Qed.

Example baccarat_five_seven :
  calculateBaccaratValue [mkCard hearts R5 5; mkCard clubs R7 7] = 2.
Proof. reflexivity. Qed.

Example baccarat_ace_eight :
  calculateBaccaratValue [mkCard hearts RA 11; mkCard clubs R8 8] = 9.
Proof. reflexivity. Qed.

Example baccarat_two_kings :
  calculateBaccaratValue [mkCard hearts RK 10; mkCard clubs RK 10] = 0.
Proof. reflexivity. Qed.

Lemma deckCard_value c : deckCard c -> value c = blackjackPoints (rank c).
Proof.
  unfold deckCard. intros H.
  assert (Hall : Forall (fun c => value c = blackjackPoints (rank c)) orderedDeck).
  { by_decision. }
  rewrite Forall_forall in Hall. apply Hall. exact H.
Qed.

Lemma score_fold hand s a :
  fold_left
    (fun '(score, aces) card =>
       if bool_decide (rank card = RA) then (score + 11, S aces)
       else (score + value card, aces))
    hand (s, a)
  = (s + foldr (fun c acc => (if isAce c then 11 else value c) + acc) 0 hand,
     (a + aceCount hand)%nat).
Proof.
  revert s a. induction hand as [|c hand IH]; intros s a; simpl.
  - f_equal; lia.
  - change (bool_decide (rank c = RA)) with (isAce c).
    destruct (isAce c); rewrite IH; f_equal; lia.
Qed.

Lemma adjustAces_spec s a :
  exists k : nat,
    (k <= a)%nat /\ adjustAces s a = s - 10 * Z.of_nat k /\
    (adjustAces s a <= 21 \/ k = a) /\
    (forall j : nat, (j < k)%nat -> 21 < s - 10 * Z.of_nat j).
Proof.
  revert s. induction a as [|a IH]; intros s; simpl.
  - exists O. repeat split; [lia | lia | now right | lia].
  - destruct (21 <? s) eqn:E.
    + apply Z.ltb_lt in E. destruct (IH (s - 10)) as (k & Hk & Heq & Hstop & Hgt).
      exists (S k). repeat split; [lia | lia | lia |].
      intros [|j] Hj; [lia |]. specialize (Hgt j). lia.
    + apply Z.ltb_ge in E. exists O. repeat split; [lia | lia | now left | lia].
Qed.

Lemma totals_iff hand t :
  t ∈ totals hand <->
  exists k : nat, (k <= aceCount hand)%nat /\ t = highTotal hand - 10 * Z.of_nat k.
Proof.
  revert t. induction hand as [|c hand IH]; intros t; simpl.
  - rewrite list_elem_of_singleton. split.
    + intros ->. exists O. split; [lia | reflexivity].
    + intros (k & Hk & ->). assert (k = O) by lia. subst. reflexivity.
  - destruct (isAce c) eqn:E.
    + assert (Hc : blackjackPoints (rank c) = 11).
      { unfold isAce in E. apply bool_decide_eq_true in E. now rewrite E. }
      rewrite Hc, elem_of_app, !list_elem_of_fmap. split.
      * intros [(u & -> & Hu) | (u & -> & Hu)]; apply IH in Hu as (k & Hk & ->).
        -- exists k. split; lia.
        -- exists (S k). split; lia.
      * intros (k & Hk & ->). destruct (decide (k <= aceCount hand)%nat) as [Hle|Hgt].
        -- left. exists (highTotal hand - 10 * Z.of_nat k). split; [lia |].
           apply IH. exists k. split; [lia | reflexivity].
        -- right. exists (highTotal hand - 10 * Z.of_nat (k - 1)). split; [lia |].
           apply IH. exists (k - 1)%nat. split; [lia | reflexivity].
    + rewrite list_elem_of_fmap. split.
      * intros (u & -> & Hu). apply IH in Hu as (k & Hk & ->). exists k. split; lia.
      * intros (k & Hk & ->). exists (highTotal hand - 10 * Z.of_nat k). split; [lia |].
        apply IH. exists k. split; [lia | reflexivity].
Qed.

Lemma score_highTotal hand :
  Forall deckCard hand ->
  foldr (fun c acc => (if isAce c then 11 else value c) + acc) 0 hand = highTotal hand.
Proof.
  induction 1 as [|c hand Hc _ IH]; simpl; [reflexivity |].
  rewrite IH. destruct (isAce c) eqn:E.
  - unfold isAce in E. apply bool_decide_eq_true in E. now rewrite E.
  - now rewrite (deckCard_value c Hc).
Qed.

Lemma calculateBlackjackScore_unfold hand :
  Forall deckCard hand ->
  calculateBlackjackScore hand = adjustAces (highTotal hand) (aceCount hand).
Proof.
  intros Hwf. unfold calculateBlackjackScore. rewrite score_fold.
  rewrite (score_highTotal hand Hwf). reflexivity.
Qed.

Lemma baccarat_fold cards s :
  fold_left
    (fun sum card =>
       let value :=
         if bool_decide (rank card = RA) then 1
         else if includes [RJ; RQ; RK] (rank card) then 0
         else if bool_decide (rank card = RT) then 0
         else numberOf (parseInt (rank card)) in
       sum + value)
    cards s
  = s + foldr (fun c acc => baccaratPoints (rank c) + acc) 0 cards.
Proof.
  revert s. induction cards as [|c cards IH]; intros s; simpl; [lia |].
  rewrite IH. destruct c as [su [] v]; vm_compute numberOf; simpl; lia.
Qed.

Lemma baccaratPoints_sum_nonneg cards :
  0 <= foldr (fun c acc => baccaratPoints (rank c) + acc) 0 cards.
Proof.
  induction cards as [|c cards IH]; simpl; [lia |].
  destruct (rank c); simpl; lia.
Qed.

(** C7. For every list of cards, [calculateBaccaratValue] is the sum of the
    cards' baccarat points (ace 1, ten and faces 0, other ranks their number)
    modulo 10, and lies between 0 and 9. *)
Theorem calculateBaccaratValue_mod10 (cards : list Card) :
  calculateBaccaratValue cards
  = (foldr (fun c acc => baccaratPoints (rank c) + acc) 0 cards) mod 10
  /\ 0 <= calculateBaccaratValue cards <= 9.
Proof.
  assert (Heq : calculateBaccaratValue cards
                = (foldr (fun c acc => baccaratPoints (rank c) + acc) 0 cards) mod 10).
  { unfold calculateBaccaratValue. rewrite baccarat_fold, Z.add_0_l.
    apply Z.rem_mod_nonneg; [apply baccaratPoints_sum_nonneg | lia]. }
  split; [exact Heq |].
  rewrite Heq.
  pose proof (Z.mod_pos_bound
                (foldr (fun c acc => baccaratPoints (rank c) + acc) 0 cards) 10).
  lia.
Qed.

(** C5. On a hand of cards of the deck, [calculateBlackjackScore] is the
    total with every ace at 11 and tens and faces at 10, lowered by 10 once
    per ace for as long as it exceeds 21; it is one of the totals the hand
    can make, the highest of those that do not exceed 21, and the lowest of
    all when every total exceeds 21. Two aces score 12, an ace and a king 21,
    three kings 30. *)
Theorem calculateBlackjackScore_best_total (hand : list Card) :
  Forall deckCard hand ->
  (exists k : nat,
      (k <= aceCount hand)%nat /\
      calculateBlackjackScore hand = highTotal hand - 10 * Z.of_nat k /\
      (calculateBlackjackScore hand <= 21 \/ k = aceCount hand) /\
      (forall j : nat, (j < k)%nat -> 21 < highTotal hand - 10 * Z.of_nat j)) /\
  calculateBlackjackScore hand ∈ totals hand /\
  (forall t, t ∈ totals hand -> t <= 21 ->
             t <= calculateBlackjackScore hand <= 21) /\
  ((forall t, t ∈ totals hand -> 21 < t) ->
   forall t, t ∈ totals hand -> calculateBlackjackScore hand <= t) /\
  calculateBlackjackScore [mkCard hearts RA 11; mkCard spades RA 11] = 12 /\
  calculateBlackjackScore [mkCard hearts RA 11; mkCard spades RK 10] = 21 /\
  calculateBlackjackScore
    [mkCard hearts RK 10; mkCard spades RK 10; mkCard clubs RK 10] = 30.
Proof.
  intros Hwf. rewrite (calculateBlackjackScore_unfold hand Hwf).
  destruct (adjustAces_spec (highTotal hand) (aceCount hand))
    as (k & Hk & Heq & Hstop & Hgt).
  assert (Hin : adjustAces (highTotal hand) (aceCount hand) ∈ totals hand).
  { apply totals_iff. exists k. split; [exact Hk | exact Heq]. }
  split; [exists k; repeat split; assumption |].
  split; [exact Hin |].
  split; [| split; [| repeat split; reflexivity]].
  - intros t Ht Hle. apply totals_iff in Ht as (k' & Hk' & ->).
    destruct (decide (k' < k)%nat) as [Hlt|Hge].
    + specialize (Hgt k' Hlt). lia.
    + destruct Hstop as [Hstop|Hstop]; lia.
  - intros Hall t Ht. specialize (Hall _ Hin).
    apply totals_iff in Ht as (k' & Hk' & ->).
    destruct Hstop as [Hstop|Hstop]; lia.
Qed.

Lemma calculateBlackjackScore_best_total_witness :
  Forall deckCard [mkCard hearts RA 11; mkCard diamonds R7 7; mkCard spades R9 9] /\
  calculateBlackjackScore
    [mkCard hearts RA 11; mkCard diamonds R7 7; mkCard spades R9 9] = 17 /\
  calculateBlackjackScore
    [mkCard hearts RA 11; mkCard diamonds R7 7; mkCard spades R9 9]
  ∈ totals [mkCard hearts RA 11; mkCard diamonds R7 7; mkCard spades R9 9].
Proof.
  assert (Hwf : Forall deckCard
                  [mkCard hearts RA 11; mkCard diamonds R7 7; mkCard spades R9 9]).
  { by_decision. }
  split; [exact Hwf |]. split; [reflexivity |].
  exact (proj1 (proj2 (calculateBlackjackScore_best_total _ Hwf))).
Defined.

(** ** The deck *)

(** C9. When the shuffle is a permutation, [createDeck] has exactly 52 cards,
    no (suit, rank) pair twice and every pair once, and each card's [value]
    is 11 for an ace, 10 for T, J, Q and K, and the number of a rank 2-9. *)
Theorem createDeck_52_distinct (shuffleArray : Shuffle) :
  IsShuffle shuffleArray ->
  length (createDeck shuffleArray) = 52%nat /\
  NoDup (map suitRank (createDeck shuffleArray)) /\
  (forall s r, exists c, c ∈ createDeck shuffleArray /\ suit c = s /\ rank c = r) /\
  (forall c, c ∈ createDeck shuffleArray ->
     value c = match rank c with
               | RA => 11
               | RT | RJ | RQ | RK => 10
               | R2 => 2 | R3 => 3 | R4 => 4 | R5 => 5
               | R6 => 6 | R7 => 7 | R8 => 8 | R9 => 9
               end).
Proof.
  intros Hperm. unfold createDeck. specialize (Hperm orderedDeck).
  split; [| split; [| split]].
  - rewrite <- (Permutation_length Hperm). reflexivity.
  - rewrite <- Hperm. by_decision.
  - intros s r. exists (mkCard s r (deckValue r)). split; [| split; reflexivity].
    rewrite <- Hperm. destruct s, r; by_decision.
  - intros c Hc. rewrite <- Hperm in Hc. exact (deckCard_value c Hc).
Qed.

Lemma createDeck_52_distinct_witness :
  IsShuffle (fun l => rev l) /\ length (createDeck (fun l => rev l)) = 52%nat.
Proof.
  assert (H : IsShuffle (fun l => rev l)) by (intros l; apply Permutation_rev).
  split; [exact H | exact (proj1 (createDeck_52_distinct _ H))].
Defined.

(** ** The wheel *)

Lemma ceil_twelfth n : Qceiling (inject_Z n / 12) = - ((- n) / 12).
Proof.
  unfold Qceiling, Qfloor, Qdiv, Qmult, Qopp, Qinv, inject_Z. simpl.
  rewrite Z.mul_1_r. reflexivity.
Qed.

(** C6. For a drawn number between 0 and 36: number 0 is green with dozen 0
    and column 0 and loses every odd, even, low and high bet; a number that
    is not 0 is red exactly when it is one of the 18 red numbers and black
    otherwise, its dozen is the ceiling of n/12 and its column is
    (n-1) mod 3 + 1; number 32 is red, in dozen 3 and column 2. *)
Theorem generateRouletteResult_outcome (n : Z) :
  0 <= n <= 36 ->
  number (generateRouletteResult n) = n /\
  (n = 0 ->
     color (generateRouletteResult n) = green /\
     dozen (generateRouletteResult n) = 0 /\
     column (generateRouletteResult n) = 0 /\
     forall bet, betType bet ∈ [odd; even; low; high] ->
                 checkRouletteBet bet (generateRouletteResult n) = false) /\
  (n <> 0 ->
     (n ∈ redNumbers -> color (generateRouletteResult n) = red) /\
     (n ∉ redNumbers -> color (generateRouletteResult n) = black) /\
     12 * (dozen (generateRouletteResult n) - 1) < n
       <= 12 * dozen (generateRouletteResult n) /\
     column (generateRouletteResult n) = (n - 1) mod 3 + 1) /\
  (n = 32 ->
     color (generateRouletteResult n) = red /\
     dozen (generateRouletteResult n) = 3 /\
     column (generateRouletteResult n) = 2) /\
  length redNumbers = 18%nat.
Proof.
  intros Hn. split; [reflexivity |]. split; [| split; [| split; [| reflexivity]]].
  - intros ->. repeat split.
    intros bet Hbet. unfold checkRouletteBet.
    rewrite !elem_of_cons in Hbet.
    destruct Hbet as [-> | [-> | [-> | [-> | Hnil]]]]; try reflexivity.
    now apply elem_of_nil in Hnil.
  - intros Hnz. unfold generateRouletteResult; simpl.
    rewrite (bool_decide_eq_false_2 (n = 0) Hnz). unfold includes.
    split; [| split; [| split]].
    + intros Hred. now rewrite (bool_decide_eq_true_2 _ Hred).
    + intros Hblack. now rewrite (bool_decide_eq_false_2 _ Hblack).
    + rewrite ceil_twelfth. pose proof (Z.div_mod (- n) 12).
      pose proof (Z.mod_pos_bound (- n) 12). lia.
    + rewrite Z.rem_mod_nonneg by lia. reflexivity.
  - intros ->. repeat split.
Qed.

Lemma generateRouletteResult_outcome_witness :
  0 <= 17 <= 36 /\ 17 <> 0 /\ (17 ∉ redNumbers) /\
  color (generateRouletteResult 17) = black.
Proof.
  assert (H : 0 <= 17 <= 36) by lia.
  assert (Hnz : 17 <> 0) by lia.
  assert (Hblack : 17 ∉ redNumbers).
  { by_decision. }
  split; [exact H |]. split; [exact Hnz |]. split; [exact Hblack |].
  destruct (generateRouletteResult_outcome 17 H) as (_ & _ & Hrest & _).
  destruct (Hrest Hnz) as (_ & Hb & _). exact (Hb Hblack).
Defined.

(** ** Roulette bets *)

Section RouletteLoop.
Variable result : RouletteResult.

Lemma rouletteStep_results bets total results :
  snd (fold_left (rouletteStep result) bets (total, results))
  = results ++ map (betResultOf result) bets.
Proof.
  revert total results.
  induction bets as [|bet bets IH]; intros total results; simpl.
  - now rewrite app_nil_r.
  - rewrite IH, <- app_assoc. reflexivity.
Qed.

Lemma checkRouletteBet_neverWins bet :
  neverWins (betType bet) -> checkRouletteBet bet result = false.
Proof.
  unfold neverWins, checkRouletteBet. rewrite !elem_of_cons.
  intros [-> | [-> | [-> | [-> | Hnil]]]]; try reflexivity.
  now apply elem_of_nil in Hnil.
Qed.

Lemma rouletteStep_total_neverWins bets results :
  Forall (fun bet => neverWins (betType bet)) bets ->
  fst (fold_left (rouletteStep result) bets (0%Q, results)) = 0%Q.
Proof.
  intros Hall. revert results.
  induction Hall as [|bet bets Hbet _ IH]; intros results.
  - reflexivity.
  - simpl. rewrite (checkRouletteBet_neverWins bet Hbet). apply IH.
Qed.
End RouletteLoop.

Lemma playRoulette_accepts n e playerId tid table bets :
  tables !! tid = Some table -> type table = roulette ->
  playRoulette n e playerId tid bets =
  let result := generateRouletteResult n in
  let '(totalPayout, betResults) := fold_left (rouletteStep result) bets (0%Q, []) in
  (RouletteOutcome result betResults totalPayout,
   mkEngine (gameStates e)
     (if Qltb 0 totalPayout then addBalance playerId totalPayout GC (players e)
      else players e)).
Proof.
  intros Htable Htype. unfold playRoulette. rewrite Htable, Htype.
  rewrite bool_decide_eq_true_2 by reflexivity. reflexivity.
Qed.

(** C10. A bet of type split, street, corner or line never wins: on every
    wheel result [checkRouletteBet] is false for it; [playRoulette] accepts
    it all the same and reports it with [isWin] false and payout 0, and a
    call whose bets are all of these types pays 0 in total and leaves the
    balances as they were. *)
Theorem playRoulette_inside_bets_never_win
    (n : Z) (e : Engine) (playerId tid : string) (table : TableGame)
    (bets : list RouletteBet) :
  tables !! tid = Some table -> type table = roulette ->
  (forall bet result, neverWins (betType bet) -> checkRouletteBet bet result = false) /\
  exists betResults totalPayout e',
    playRoulette n e playerId tid bets
    = (RouletteOutcome (generateRouletteResult n) betResults totalPayout, e') /\
    length betResults = length bets /\
    (forall i bet, bets !! i = Some bet -> neverWins (betType bet) ->
       betResults !! i = Some (mkBetResult (betType bet) (amount bet) false 0%Q)) /\
    (Forall (fun bet => neverWins (betType bet)) bets ->
       totalPayout = 0%Q /\ e' = e).
Proof.
  intros Htable Htype.
  split; [intros bet result; apply checkRouletteBet_neverWins |].
  rewrite (playRoulette_accepts n e playerId tid table bets Htable Htype). cbv zeta.
  pose proof (rouletteStep_results (generateRouletteResult n) bets 0%Q []) as Hres.
  pose proof (rouletteStep_total_neverWins (generateRouletteResult n) bets []) as Htot.
  destruct (fold_left (rouletteStep (generateRouletteResult n)) bets (0%Q, []))
    as [totalPayout betResults].
  simpl in Hres, Htot. subst betResults.
  eexists _, _, _. split; [reflexivity |]. split; [| split].
  - now rewrite length_map.
  - intros i bet Hi Hnever. rewrite list_lookup_fmap, Hi. simpl.
    unfold betResultOf. now rewrite (checkRouletteBet_neverWins _ bet Hnever).
  - intros Hall. specialize (Htot Hall). subst totalPayout.
    split; [reflexivity |]. destruct e; reflexivity.
Qed.

Lemma playRoulette_inside_bets_never_win_witness :
  exists betResults,
    playRoulette 4 lobby "alice" "roulette-1"
      [mkRouletteBet corner [1; 2; 4; 5] 10 8; mkRouletteBet line [1; 2; 3; 4; 5; 6] 5 5]
    = (RouletteOutcome (generateRouletteResult 4) betResults 0%Q, lobby).
Proof.
  destruct (playRoulette_inside_bets_never_win 4 lobby "alice" "roulette-1" rouletteTable
              [mkRouletteBet corner [1; 2; 4; 5] 10 8;
               mkRouletteBet line [1; 2; 3; 4; 5; 6] 5 5])
    as (_ & betResults & totalPayout & e' & Heq & _ & _ & Hzero).
  - vm_compute. reflexivity.
  - reflexivity.
  - destruct Hzero as [-> ->].
    + repeat constructor; unfold neverWins; by_decision.
    + exists betResults. exact Heq.
Defined.

(** ** The dealer *)

#[local] Arguments pop : simpl never.
#[local] Arguments scoring : simpl never.

Lemma pop_snoc (deck : list Card) (c : Card) : pop (deck ++ [c]) = (Some c, deck).
Proof. unfold pop. now rewrite last_snoc, removelast_last. Qed.

Lemma definedCards_Some (cards : list Card) : definedCards (Some <$> cards) = Some cards.
Proof.
  induction cards as [|c cards IH]; [reflexivity |].
  rewrite fmap_cons. cbn [definedCards]. now rewrite IH.
Qed.

Lemma scoring_Some f (cards : list Card) : scoring f (Some <$> cards) = Returns (f cards).
Proof. unfold scoring. now rewrite definedCards_Some. Qed.

Lemma highTotal_ge_length hand :
  Z.of_nat (length hand) + 10 * Z.of_nat (aceCount hand) <= highTotal hand.
Proof.
  induction hand as [|c hand IH]; simpl; [lia |].
  unfold isAce. case_bool_decide as E.
  - rewrite E. simpl blackjackPoints. lia.
  - destruct (rank c); simpl blackjackPoints; lia.
Qed.

Lemma score_ge_length hand :
  Forall deckCard hand -> Z.of_nat (length hand) <= calculateBlackjackScore hand.
Proof.
  intros Hwf. rewrite (calculateBlackjackScore_unfold hand Hwf).
  destruct (adjustAces_spec (highTotal hand) (aceCount hand)) as (k & Hk & -> & _).
  pose proof (highTotal_ge_length hand). lia.
Qed.

Lemma dealerLoop_spec (n : nat) : forall (dealer deck : list Card),
  n = length deck ->
  Forall deckCard dealer -> Forall deckCard deck ->
  (17 <= length dealer + n)%nat ->
  exists drawn rest,
    deck = rest ++ rev drawn /\
    dealerLoop n (Some <$> dealer) deck = Returns (Some <$> (dealer ++ drawn), rest) /\
    17 <= calculateBlackjackScore (dealer ++ drawn) /\
    forall k : nat, (k < length drawn)%nat ->
                    calculateBlackjackScore (dealer ++ take k drawn) < 17.
Proof.
  induction n as [|n IH]; intros dealer deck Hn Hdealer Hdeck Hlen.
  - exists [], deck. pose proof (score_ge_length dealer Hdealer) as Hge.
    rewrite !app_nil_r. simpl. rewrite scoring_Some. simpl.
    destruct (calculateBlackjackScore dealer <? 17) eqn:E.
    + apply Z.ltb_lt in E. lia.
    + apply Z.ltb_ge in E. repeat split; [exact E | intros k Hk; simpl in Hk; lia].
  - simpl. rewrite scoring_Some. simpl.
    destruct (calculateBlackjackScore dealer <? 17) eqn:E.
    + destruct (exists_last (l := deck)) as (deck' & c & ->).
      { intros ->. discriminate Hn. }
      rewrite last_snoc, removelast_last.
      rewrite length_app in Hn. simpl in Hn.
      apply Forall_app in Hdeck as [Hdeck' Hc].
      destruct (IH (dealer ++ [c]) deck') as (drawn & rest & -> & Hloop & Hstop & Hbelow).
      * lia.
      * apply Forall_app. split; assumption.
      * exact Hdeck'.
      * rewrite length_app. simpl. lia.
      * exists (c :: drawn), rest. split; [| split; [| split]].
        -- simpl. now rewrite app_assoc.
        -- change ((Some <$> dealer) ++ [Some c]) with ((Some <$> dealer) ++ (Some <$> [c])).
           rewrite <- fmap_app, Hloop, <- app_assoc. reflexivity.
        -- now rewrite <- app_assoc in Hstop.
        -- intros [|k] Hk; simpl.
           ++ rewrite app_nil_r. now apply Z.ltb_lt.
           ++ specialize (Hbelow k). rewrite <- app_assoc in Hbelow. simpl in Hbelow.
              apply Hbelow. simpl in Hk. lia.
    + apply Z.ltb_ge in E. exists [], deck. rewrite !app_nil_r.
      repeat split; [exact E | intros k Hk; simpl in Hk; lia].
Qed.

(** ** Payout and credit *)

Lemma Qltb_lt (x y : Q) : Qltb x y = true <-> (x < y)%Q.
Proof.
  unfold Qltb. rewrite negb_true_iff. split.
  - intros H. apply Qnot_le_lt. intros Hle. apply Qle_bool_iff in Hle. congruence.
  - intros H. destruct (Qle_bool y x) eqn:E; [| reflexivity].
    apply Qle_bool_iff in E. exfalso. exact (Qlt_not_le _ _ H E).
Qed.

Lemma addBalance_credits playerId payout (ps : gmap string TablePlayer) p :
  ps !! playerId = Some p ->
  exists p', addBalance playerId payout GC ps !! playerId = Some p' /\
             (goldCoins (balance p') == goldCoins (balance p) + payout)%Q /\
             sweepCoins (balance p') = sweepCoins (balance p) /\
             forall other, other <> playerId ->
                           addBalance playerId payout GC ps !! other = ps !! other.
Proof.
  intros Hp. exists (credit payout GC p). unfold addBalance. split; [| split; [| split]].
  - now rewrite lookup_alter_eq, Hp.
  - simpl. reflexivity.
  - reflexivity.
  - intros other Hne. now rewrite lookup_alter_ne.
Qed.

(** C4. [resolveBlackjackHand] on a round with a player hand, a bet [b] and
    enough cards: the dealer takes cards from the end of the deck for as long
    as the dealer's score is below 17 and stops at 17 or more; the payout is
    0 when the player is over 21, 2b when only the dealer is over 21 or the
    player's score is the higher one, 0 when it is the lower one and b when
    the scores are equal; a payout above 0 is added once to the player's
    gold coins, and a payout of 0 changes no balance. *)
Theorem resolveBlackjackHand_payout (playerId : string) (gameState : GameState)
    (ps : gmap string TablePlayer) (hand dealer : list Card) (b : Q)
    (p : TablePlayer) :
  playerHands gameState !! playerId = Some (Some <$> hand) ->
  dealerHand gameState = Some <$> dealer ->
  bets gameState !! playerId = Some b ->
  ps !! playerId = Some p ->
  Forall deckCard dealer -> Forall deckCard (deck gameState) ->
  (17 <= length dealer + length (deck gameState))%nat ->
  exists (drawn rest : list Card) (result : string) (payout : Q)
         (gameState' : GameState) (ps' : gmap string TablePlayer),
    resolveBlackjackHand playerId gameState ps
    = Returns (Resolved result (calculateBlackjackScore hand)
                 (calculateBlackjackScore (dealer ++ drawn))
                 (Some <$> (dealer ++ drawn)) (Some payout),
               gameState', ps') /\
    deck gameState = rest ++ rev drawn /\
    deck gameState' = rest /\
    dealerHand gameState' = Some <$> (dealer ++ drawn) /\
    (forall k : nat, (k < length drawn)%nat ->
                     calculateBlackjackScore (dealer ++ take k drawn) < 17) /\
    17 <= calculateBlackjackScore (dealer ++ drawn) /\
    (21 < calculateBlackjackScore hand ->
       result = "bust"%string /\ (payout == 0)%Q) /\
    (calculateBlackjackScore hand <= 21 ->
     21 < calculateBlackjackScore (dealer ++ drawn) ->
       result = "win"%string /\ (payout == 2 * b)%Q) /\
    (calculateBlackjackScore (dealer ++ drawn) <= 21 ->
     calculateBlackjackScore (dealer ++ drawn) < calculateBlackjackScore hand <= 21 ->
       result = "win"%string /\ (payout == 2 * b)%Q) /\
    (calculateBlackjackScore hand < calculateBlackjackScore (dealer ++ drawn) <= 21 ->
       result = "lose"%string /\ (payout == 0)%Q) /\
    (calculateBlackjackScore hand = calculateBlackjackScore (dealer ++ drawn) ->
     calculateBlackjackScore hand <= 21 ->
       result = "push"%string /\ (payout == b)%Q) /\
    ((0 < payout)%Q ->
       exists p', ps' !! playerId = Some p' /\
                  (goldCoins (balance p') == goldCoins (balance p) + payout)%Q /\
                  sweepCoins (balance p') = sweepCoins (balance p) /\
                  forall other, other <> playerId -> ps' !! other = ps !! other) /\
    (~ (0 < payout)%Q -> ps' = ps).
Proof.
  intros Hhand Hdealer Hbet Hp Hwf Hdeck Hlen.
  destruct (dealerLoop_spec (length (deck gameState)) dealer (deck gameState)
              eq_refl Hwf Hdeck Hlen)
    as (drawn & rest & Hsplit & Hloop & Hstop & Hbelow).
  exists drawn, rest.
  unfold resolveBlackjackHand. rewrite Hhand, Hdealer, Hbet, Hloop.
  cbn [mbind Completion_bind scoringLookup]. rewrite !scoring_Some.
  cbn [mbind Completion_bind fmap option_fmap option_map].
  set (playerScore := calculateBlackjackScore hand) in *.
  set (dealerScore := calculateBlackjackScore (dealer ++ drawn)) in *.
  assert (Hcredit : forall payout : Q,
    let ps' := if Qltb 0 payout then addBalance playerId payout GC ps else ps in
    ((0 < payout)%Q ->
       exists p', ps' !! playerId = Some p' /\
                  (goldCoins (balance p') == goldCoins (balance p) + payout)%Q /\
                  sweepCoins (balance p') = sweepCoins (balance p) /\
                  forall other, other <> playerId -> ps' !! other = ps !! other) /\
    (~ (0 < payout)%Q -> ps' = ps)).
  { intros payout. cbv zeta. destruct (Qltb 0 payout) eqn:E.
    - apply Qltb_lt in E. split; [intros _; now apply addBalance_credits | tauto].
    - split; [| reflexivity]. intros H. apply Qltb_lt in H. congruence. }
  destruct (21 <? playerScore) eqn:E1;
    [| destruct (21 <? dealerScore) eqn:E2;
       [| destruct (dealerScore <? playerScore) eqn:E3;
          [| destruct (playerScore <? dealerScore) eqn:E4]]];
    rewrite ?Z.ltb_lt, ?Z.ltb_ge in *;
    eexists _, _, _, _; (split; [reflexivity |]);
    (split; [exact Hsplit |]); (split; [reflexivity |]); (split; [reflexivity |]);
    (split; [exact Hbelow |]); (split; [exact Hstop |]);
    (repeat (split;
      [intros;
       first [exfalso; lia
             | split; [reflexivity | first [reflexivity | apply Qmult_comm]]] |]));
    apply Hcredit.
Qed.

Lemma resolveBlackjackHand_payout_witness :
  exists response gameState' ps',
    resolveBlackjackHand "alice" sixteenAgainstTwenty (players lobby)
    = Returns (response, gameState', ps').
Proof.
  destruct (resolveBlackjackHand_payout "alice" sixteenAgainstTwenty (players lobby)
              [mkCard hearts RK 10; mkCard hearts RQ 10]
              [mkCard hearts R9 9; mkCard diamonds R7 7] 10%Q alice)
    as (drawn & rest & result & payout & gameState' & ps' & Heq & _).
  - reflexivity.
  - reflexivity.
  - reflexivity.
  - reflexivity.
  - by_decision.
  - by_decision.
  - simpl. lia.
  - eexists _, _, _. exact Heq.
Defined.

(** ** A stand without a hand *)

Lemma resolveBlackjackHand_no_hand playerId gameState ps :
  playerHands gameState !! playerId = None ->
  resolveBlackjackHand playerId gameState ps = Throws TypeError.
Proof.
  intros Hnone. unfold resolveBlackjackHand. rewrite Hnone.
  destruct (dealerLoop _ _ _) as [[dealerHand' deck'] | []]; reflexivity.
Qed.

(** C3. Not every error of [playBlackjack] is a result object: "stand" for a
    player without an active hand in the table's state ends with an uncaught
    [TypeError], on every blackjack table and for every registered player,
    where "hit" and "double" return "No active hand". *)
Theorem stand_without_hand_throws (shuffleArray : Shuffle) (e : Engine)
    (playerId tableId : string) (table : TableGame) (bet : option Q) :
  tables !! tableId = Some table ->
  type table = blackjack ->
  is_Some (players e !! playerId) ->
  (forall gameState, gameStates e !! tableId = Some gameState ->
                     playerHands gameState !! playerId = None) ->
  playBlackjack shuffleArray e playerId tableId "stand" bet = Throws TypeError.
Proof.
  intros Htable Htype [p Hp] Hnohand. unfold playBlackjack, getPlayer.
  rewrite Htable, Htype, Hp. cbn [negb String.eqb Ascii.eqb Bool.eqb].
  rewrite bool_decide_eq_true_2 by reflexivity. cbn [negb].
  rewrite resolveBlackjackHand_no_hand; [reflexivity |].
  destruct (gameStates e !! tableId) as [gameState|] eqn:E; simpl.
  - now apply Hnohand.
  - apply lookup_empty.
Qed.

Lemma stand_without_hand_throws_witness :
  playBlackjack (fun l => rev l) lobby "alice" "blackjack-1" "stand" None
  = Throws TypeError.
Proof.
  apply (stand_without_hand_throws _ lobby "alice" "blackjack-1" blackjackTable None).
  - vm_compute. reflexivity.
  - reflexivity.
  - exists alice. vm_compute. reflexivity.
  - intros gameState H. vm_compute in H. discriminate H.
Defined.

(** ** The state store *)

(** No action of [playBlackjack] enters a state in the store of a table that
    has none; the store of a new engine stays empty. *)
Lemma playBlackjack_store_untouched (shuffleArray : Shuffle) (e e' : Engine)
    (playerId tid action : string) (bet : option Q) (response : BlackjackResponse) :
  gameStates e !! tid = None ->
  playBlackjack shuffleArray e playerId tid action bet = Returns (response, e') ->
  gameStates e' = gameStates e.
Proof.
  intros Hfresh. unfold playBlackjack. rewrite Hfresh. cbn [default].
  destruct (tables !! tid) as [table|]; [| now intros [= <- <-]].
  destruct (negb (bool_decide (type table = blackjack))); [now intros [= <- <-] |].
  destruct (getPlayer (players e) playerId) as [p|]; [| now intros [= <- <-]].
  destruct (String.eqb action "bet").
  { destruct (invalidBet bet table); [now intros [= <- <-] |].
    unfold pop. destruct (scoring calculateBlackjackScore _); [| discriminate].
    now intros [= <- <-]. }
  destruct (String.eqb action "hit").
  { cbn [freshState playerHands]. rewrite lookup_empty. now intros [= <- <-]. }
  destruct (String.eqb action "stand").
  { destruct (resolveBlackjackHand _ _ _) as [[[r gs] ps]|]; [| discriminate].
    now intros [= <- <-]. }
  destruct (String.eqb action "double"); [| now intros [= <- <-]].
  destruct (negb (canAffordWager _ _ _ _)); [now intros [= <- <-] |].
  cbn [freshState playerHands]. rewrite lookup_empty. now intros [= <- <-].
Qed.

(** C1. The round state does not persist from a "bet" to the "hit" that
    follows it: [playBlackjack] never enters the state it builds in
    [this.gameStates], so on a table without a stored state a successful
    "bet" leaves the store as it was and the "hit" after it fails with
    "No active hand", where the specification has it find the two-card hand
    in the per-table store. *)
Theorem hit_after_bet_finds_no_hand (shuffle1 shuffle2 : Shuffle) (e e1 : Engine)
    (playerId tableId : string) (bet : option Q) (response : BlackjackResponse) :
  gameStates e !! tableId = None ->
  playBlackjack shuffle1 e playerId tableId "bet" bet = Returns (response, e1) ->
  success response = true ->
  gameStates e1 = gameStates e /\
  playBlackjack shuffle2 e1 playerId tableId "hit" None
  = Returns (Failure "No active hand", e1).
Proof.
  intros Hfresh Hbet Hok. unfold playBlackjack, getPlayer in Hbet |- *.
  destruct (tables !! tableId) as [table|] eqn:Htable;
    [| injection Hbet as <- <-; discriminate Hok].
  destruct (bool_decide (type table = blackjack)) eqn:Htype; cbn [negb] in Hbet |- *;
    [| injection Hbet as <- <-; discriminate Hok].
  rewrite Hfresh in Hbet. cbn [default] in Hbet.
  destruct (players e !! playerId) as [p|] eqn:Hp;
    [| injection Hbet as <- <-; discriminate Hok].
  change (String.eqb "bet" "bet") with true in Hbet. cbv iota in Hbet.
  destruct (invalidBet bet table); [injection Hbet as <- <-; discriminate Hok |].
  unfold pop in Hbet.
  destruct (scoring calculateBlackjackScore _) as [playerScore|] in Hbet;
    [| discriminate Hbet].
  cbn [mbind Completion_bind] in Hbet. injection Hbet as <- <-.
  cbn [gameStates players]. split; [reflexivity |].
  rewrite Hfresh, lookup_insert_eq. reflexivity.
Qed.

Lemma hit_after_bet_finds_no_hand_witness :
  gameStates lobby !! "blackjack-1"%string = None /\
  playBlackjack (fun l => rev l) lobby "alice" "blackjack-1" "bet" (Some 10%Q)
  = Returns (Dealt [Some (mkCard hearts RA 11); Some (mkCard hearts R2 2)]
               (Some (mkCard hearts R3 3)) 13,
             mkEngine ∅ {[ "alice"%string := mkPlayer (mkBalance 1000 0) (Some 10%Q) ]}) /\
  playBlackjack (fun l => l)
    (mkEngine ∅ {[ "alice"%string := mkPlayer (mkBalance 1000 0) (Some 10%Q) ]})
    "alice" "blackjack-1" "hit" None
  = Returns (Failure "No active hand",
             mkEngine ∅ {[ "alice"%string := mkPlayer (mkBalance 1000 0) (Some 10%Q) ]}).
Proof.
  assert (Hfresh : gameStates lobby !! "blackjack-1"%string = None) by reflexivity.
  assert (Hbet :
    playBlackjack (fun l => rev l) lobby "alice" "blackjack-1" "bet" (Some 10%Q)
    = Returns (Dealt [Some (mkCard hearts RA 11); Some (mkCard hearts R2 2)]
                 (Some (mkCard hearts R3 3)) 13,
               mkEngine ∅ {[ "alice"%string := mkPlayer (mkBalance 1000 0) (Some 10%Q) ]})).
  { vm_compute. reflexivity. }
  split; [exact Hfresh |]. split; [exact Hbet |].
  exact (proj2 (hit_after_bet_finds_no_hand (fun l => rev l) (fun l => l) lobby _
                  "alice" "blackjack-1" (Some 10%Q) _ Hfresh Hbet eq_refl)).
Defined.

(** ** Bet validation *)

Lemma blackjack_table_unique tid table :
  tables !! tid = Some table -> type table = blackjack -> table = blackjackTable.
Proof.
  unfold tables, initializeTables. cbn [foldl tableId].
  rewrite !lookup_insert_Some, lookup_empty.
  intros [[_ <-] | [_ [[_ <-] | [_ [[_ <-] | [_ H]]]]]] Htype;
    try discriminate; reflexivity.
Qed.

Lemma invalidBet_iff bet :
  invalidBet bet blackjackTable = true <->
  bet = None \/
  exists b, bet = Some b /\
            (b < gc (minBet blackjackTable) \/ gc (maxBet blackjackTable) < b)%Q.
Proof.
  unfold invalidBet. destruct bet as [b|].
  - rewrite !orb_true_iff, !Qltb_lt, Qeq_bool_iff. cbn [gc minBet maxBet blackjackTable].
    split.
    + intros [[Hzero | Hlow] | Hhigh].
      * right. exists b. split; [reflexivity |]. left. rewrite Hzero. reflexivity.
      * right. exists b. split; [reflexivity |]. now left.
      * right. exists b. split; [reflexivity |]. now right.
    + intros [Hnone | (b' & Hb & Hrange)]; [discriminate |].
      injection Hb as <-. destruct Hrange; [left; now right | now right].
  - split; [now left | reflexivity].
Qed.

Lemma last_six (l : list Card) :
  (6 <= length l)%nat ->
  exists l' c6 c5 c4 c3 c2 c1,
    l = (((((l' ++ [c6]) ++ [c5]) ++ [c4]) ++ [c3]) ++ [c2]) ++ [c1].
Proof.
  intros Hlen.
  destruct (exists_last (l := l)) as (l1 & c1 & ->); [intros ->; simpl in Hlen; lia |].
  rewrite length_app in Hlen; simpl in Hlen.
  destruct (exists_last (l := l1)) as (l2 & c2 & ->); [intros ->; simpl in Hlen; lia |].
  rewrite length_app in Hlen; simpl in Hlen.
  destruct (exists_last (l := l2)) as (l3 & c3 & ->); [intros ->; simpl in Hlen; lia |].
  rewrite length_app in Hlen; simpl in Hlen.
  destruct (exists_last (l := l3)) as (l4 & c4 & ->); [intros ->; simpl in Hlen; lia |].
  rewrite length_app in Hlen; simpl in Hlen.
  destruct (exists_last (l := l4)) as (l5 & c5 & ->); [intros ->; simpl in Hlen; lia |].
  rewrite length_app in Hlen; simpl in Hlen.
  destruct (exists_last (l := l5)) as (l6 & c6 & ->); [intros ->; simpl in Hlen; lia |].
  now exists l6, c6, c5, c4, c3, c2, c1.
Qed.

Lemma thirdCards_returns (p1 p2 b1 b2 c5 c6 : Card) (rest : list Card) pv bv :
  exists playerCards' pv' bankerCards' bv',
    thirdCards [Some p1; Some p2] [Some b1; Some b2] pv bv ((rest ++ [c6]) ++ [c5])
    = Returns (playerCards', pv', bankerCards', bv').
Proof.
  unfold thirdCards.
  destruct (negb (8 <=? pv) && negb (8 <=? bv)); [| now eexists _, _, _, _].
  destruct (pv <=? 5).
  - rewrite !pop_snoc. cbn [app]. unfold scoring at 1. cbn [definedCards fmap option_fmap option_map mbind Completion_bind].
    destruct (shouldBankerDrawThird bv (value c5)); [| now eexists _, _, _, _].
    unfold scoring. cbn [definedCards fmap option_fmap option_map mbind Completion_bind].
    now eexists _, _, _, _.
  - destruct (bv <=? 5); [| now eexists _, _, _, _].
    rewrite pop_snoc. cbn [app]. unfold scoring.
    cbn [definedCards fmap option_fmap option_map mbind Completion_bind].
    now eexists _, _, _, _.
Qed.

Lemma playBaccarat_accepts (shuffleArray : Shuffle) (e : Engine)
    (playerId tid : string) (table : TableGame) (side : Side) (stake : Q) :
  IsShuffle shuffleArray ->
  tables !! tid = Some table -> type table = baccarat ->
  exists result payout e',
    playBaccarat shuffleArray e playerId tid side stake
    = Returns (BaccaratOutcome result payout side stake, e').
Proof.
  intros Hshuffle Htable Htype. unfold playBaccarat. rewrite Htable, Htype.
  rewrite bool_decide_eq_true_2 by reflexivity. cbn [negb].
  destruct (last_six (createDeck shuffleArray))
    as (rest & c6 & c5 & b2 & b1 & p2 & p1 & ->).
  { unfold createDeck. rewrite <- (Permutation_length (Hshuffle orderedDeck)).
    simpl. lia. }
  rewrite !pop_snoc. unfold scoring at 1 2.
  cbn [definedCards fmap option_fmap option_map mbind Completion_bind].
  destruct (thirdCards_returns p1 p2 b1 b2 c5 c6 rest
              (calculateBaccaratValue [p1; p2]) (calculateBaccaratValue [b1; b2]))
    as (pc & pv & bc & bv & ->).
  cbn [mbind Completion_bind]. now eexists _, _, _.
Qed.

(** C8. Only the "bet" of blackjack checks the amount against the table:
    for a registered player on a blackjack table it fails with "Invalid bet
    amount" exactly when the amount is missing, below [minBet.gc] or above
    [maxBet.gc]; [playRoulette] on a roulette table and [playBaccarat] on a
    baccarat table return their outcome whatever the stakes are. *)
Theorem bet_range_checked_only_by_blackjack :
  (forall (shuffleArray : Shuffle) (e : Engine) (playerId tid : string)
          (table : TableGame) (bet : option Q),
     tables !! tid = Some table -> type table = blackjack ->
     is_Some (players e !! playerId) ->
     ((exists e', playBlackjack shuffleArray e playerId tid "bet" bet
                  = Returns (Failure "Invalid bet amount", e'))
      <-> (bet = None \/
           exists b, bet = Some b /\
                     (b < gc (minBet table) \/ gc (maxBet table) < b)%Q))) /\
  (forall (n : Z) (e : Engine) (playerId tid : string) (table : TableGame)
          (bets : list RouletteBet),
     tables !! tid = Some table -> type table = roulette ->
     exists betResults totalPayout e',
       playRoulette n e playerId tid bets
       = (RouletteOutcome (generateRouletteResult n) betResults totalPayout, e') /\
       map br_amount betResults = map amount bets) /\
  (forall (shuffleArray : Shuffle) (e : Engine) (playerId tid : string)
          (table : TableGame) (side : Side) (stake : Q),
     IsShuffle shuffleArray ->
     tables !! tid = Some table -> type table = baccarat ->
     exists result payout e',
       playBaccarat shuffleArray e playerId tid side stake
       = Returns (BaccaratOutcome result payout side stake, e')).
Proof.
  split; [| split].
  - intros shuffleArray e playerId tid table bet Htable Htype [p Hp].
    pose proof (blackjack_table_unique tid table Htable Htype) as ->.
    rewrite <- invalidBet_iff. unfold playBlackjack, getPlayer.
    rewrite Htable, Hp. cbn [type blackjackTable negb].
    rewrite bool_decide_eq_true_2 by reflexivity. cbn [negb].
    change (String.eqb "bet" "bet") with true. cbv iota.
    destruct (invalidBet bet blackjackTable).
    + split; [reflexivity | intros _; now exists e].
    + split; [| discriminate]. intros [e' He']. unfold pop in He'.
      destruct (scoring calculateBlackjackScore _) in He'; discriminate He'.
  - intros n e playerId tid table bets Htable Htype.
    rewrite (playRoulette_accepts n e playerId tid table bets Htable Htype). cbv zeta.
    pose proof (rouletteStep_results (generateRouletteResult n) bets 0%Q []) as Hres.
    destruct (fold_left (rouletteStep (generateRouletteResult n)) bets (0%Q, []))
      as [totalPayout betResults].
    simpl in Hres. subst betResults. eexists _, _, _. split; [reflexivity |].
    rewrite map_map. reflexivity.
  - intros shuffleArray e playerId tid table side stake.
    apply playBaccarat_accepts.
Qed.

Lemma bet_range_checked_only_by_blackjack_witness :
  (exists e', playBlackjack (fun l => rev l) lobby "alice" "blackjack-1" "bet" (Some 501%Q)
              = Returns (Failure "Invalid bet amount", e')) /\
  (exists result payout e',
      playBaccarat (fun l => rev l) lobby "alice" "baccarat-1" tie 1000000%Q
      = Returns (BaccaratOutcome result payout tie 1000000%Q, e')).
Proof.
  destruct bet_range_checked_only_by_blackjack as (Hblackjack & _ & Hbaccarat).
  split.
  - apply (Hblackjack (fun l => rev l) lobby "alice" "blackjack-1"%string
             blackjackTable (Some 501%Q)).
    + vm_compute. reflexivity.
    + reflexivity.
    + exists alice. vm_compute. reflexivity.
    + right. exists 501%Q. split; [reflexivity |]. right. vm_compute. reflexivity.
  - apply (Hbaccarat (fun l => rev l) lobby "alice" "baccarat-1"%string
             baccaratTable tie 1000000%Q).
    + intros l. apply Permutation_rev.
    + vm_compute. reflexivity.
    + reflexivity.
Defined.

(** ** The banker's third card *)

Lemma stackedShuffle_IsShuffle : IsShuffle stackedShuffle.
Proof.
  intros l. unfold stackedShuffle. symmetry.
  apply (filter_app_complement (fun c => c ∉ stackedTop)).
Qed.

(** C2. The banker's draw is not keyed by the baccarat value of the player's
    third card: [playBaccarat] hands [shouldBankerDrawThird] the [value] field
    of that card, which is 10 for a ten or a face and 11 for an ace, and these
    are in no row of its table. With banker value 3 and a king as the
    player's third card the banker stands on two cards, although the row of 3
    lists 0 and 1 and the function draws on them; the same holds of every
    card of the deck that counts 0 or 1 in baccarat. *)
Theorem banker_three_stands_on_face_card :
  IsShuffle stackedShuffle /\
  playBaccarat stackedShuffle lobby "alice" "baccarat-1" banker 10%Q
  = Returns
      (BaccaratOutcome
         (mkBaccaratResult
            (mkBaccaratHand
               [Some (mkCard spades R3 3); Some (mkCard spades R2 2);
                Some (mkCard diamonds RK 10)] 5 false)
            (mkBaccaratHand
               [Some (mkCard clubs R2 2); Some (mkCard clubs RA 11)] 3 false)
            player)
         0%Q banker 10%Q,
       lobby) /\
  baccaratPoints RK = 0 /\
  shouldBankerDrawThird 3 (baccaratPoints RK) = true /\
  shouldBankerDrawThird 3 (value (mkCard diamonds RK 10)) = false /\
  Forall (fun c => shouldBankerDrawThird 3 (baccaratPoints (rank c)) = true /\
                   shouldBankerDrawThird 3 (value c) = false)
         (filter (fun c : Card => baccaratPoints (rank c) ∈ [0; 1]) orderedDeck).
Proof.
  split; [exact stackedShuffle_IsShuffle |].
  split; [vm_compute; reflexivity |].
  repeat (split; [reflexivity |]).
  by_decision.
Qed.

(** * Further properties *)

(** ** Scores under reordering and growth *)

Lemma aceCount_app h1 h2 : aceCount (h1 ++ h2) = (aceCount h1 + aceCount h2)%nat.
Proof.
  induction h1 as [|c h1 IH]; simpl; [reflexivity |].
  destruct (isAce c); simpl; now rewrite IH.
Qed.

Lemma highTotal_app h1 h2 : highTotal (h1 ++ h2) = highTotal h1 + highTotal h2.
Proof.
  unfold highTotal. induction h1 as [|c h1 IH]; simpl; [reflexivity |].
  rewrite IH. lia.
Qed.

Lemma aceCount_snoc hand c :
  aceCount (hand ++ [c]) = (aceCount hand + if isAce c then 1 else 0)%nat.
Proof. rewrite aceCount_app. simpl. now destruct (isAce c). Qed.

Lemma highTotal_snoc hand c :
  highTotal (hand ++ [c]) = highTotal hand + blackjackPoints (rank c).
Proof. rewrite highTotal_app. unfold highTotal at 2. simpl. lia. Qed.





Lemma blackjackPoints_bounds c :
  1 <= blackjackPoints (rank c) - (if isAce c then 10 else 0) /\
  blackjackPoints (rank c) <= 11.
Proof.
  unfold isAce. case_bool_decide as E.
  - rewrite E. simpl. lia.
  - destruct (rank c); simpl; lia.
Qed.

Lemma score_snoc_bounds hand c (k k' : nat) :
  (k <= aceCount hand)%nat ->
  (highTotal hand - 10 * Z.of_nat k <= 21 \/ k = aceCount hand) ->
  (forall j : nat, (j < k)%nat -> 21 < highTotal hand - 10 * Z.of_nat j) ->
  (k' <= aceCount (hand ++ [c]))%nat ->
  (highTotal (hand ++ [c]) - 10 * Z.of_nat k' <= 21 \/ k' = aceCount (hand ++ [c])) ->
  (forall j : nat, (j < k')%nat -> 21 < highTotal (hand ++ [c]) - 10 * Z.of_nat j) ->
  (k <= k')%nat /\
  (21 < highTotal hand - 10 * Z.of_nat k ->
   21 < highTotal (hand ++ [c]) - 10 * Z.of_nat k').
Proof.
  rewrite aceCount_snoc, highTotal_snoc.
  pose proof (blackjackPoints_bounds c) as [Hlow Hhigh].
  intros Hk Hstop Hgt Hk' Hstop' Hgt'.
  assert (Hle : (k <= k')%nat).
  { destruct (decide (k <= k')%nat) as [|Hlt]; [assumption |].
    assert (Hj : (k' < k)%nat) by lia. specialize (Hgt k' Hj).
    destruct (isAce c); destruct Hstop' as [Hs | Hs]; lia. }
  split; [exact Hle |]. intros Hbust.
  destruct (isAce c); destruct Hstop as [Hs | Hs]; lia.
Qed.

(** X2. A hand of deck cards that is over 21 stays over 21 when a deck card
    is added to it: no later card brings a bust hand back. *)
Theorem bust_is_permanent (hand : list Card) (c : Card) :
  Forall deckCard hand -> deckCard c ->
  21 < calculateBlackjackScore hand ->
  21 < calculateBlackjackScore (hand ++ [c]).
Proof.
  intros Hwf Hc. assert (Hwf' : Forall deckCard (hand ++ [c])).
  { apply Forall_app. split; [exact Hwf | now constructor]. }
  rewrite (calculateBlackjackScore_unfold hand Hwf),
          (calculateBlackjackScore_unfold _ Hwf').
  destruct (adjustAces_spec (highTotal hand) (aceCount hand))
    as (k & Hk & -> & Hstop & Hgt).
  destruct (adjustAces_spec (highTotal (hand ++ [c])) (aceCount (hand ++ [c])))
    as (k' & Hk' & -> & Hstop' & Hgt').
  exact (proj2 (score_snoc_bounds hand c k k' Hk Hstop Hgt Hk' Hstop' Hgt')).
Qed.

Lemma bust_is_permanent_witness :
  21 < calculateBlackjackScore
         [mkCard hearts RK 10; mkCard clubs R7 7; mkCard spades R6 6] /\
  21 < calculateBlackjackScore
         ([mkCard hearts RK 10; mkCard clubs R7 7; mkCard spades R6 6]
          ++ [mkCard diamonds RA 11]).
Proof.
  assert (H : 21 < calculateBlackjackScore
                     [mkCard hearts RK 10; mkCard clubs R7 7; mkCard spades R6 6])
    by (vm_compute; reflexivity).
  split; [exact H |].
  apply bust_is_permanent; [by_decision | by_decision | exact H].
Defined.

(** X3. A deck card added to a hand of deck cards raises the score by at
    most its points with the ace high (11 for an ace), and lowers it by at
    most 9. *)
Theorem score_after_card (hand : list Card) (c : Card) :
  Forall deckCard hand -> deckCard c ->
  calculateBlackjackScore hand - 9
  <= calculateBlackjackScore (hand ++ [c])
  <= calculateBlackjackScore hand + blackjackPoints (rank c).
Proof.
  intros Hwf Hc. assert (Hwf' : Forall deckCard (hand ++ [c])).
  { apply Forall_app. split; [exact Hwf | now constructor]. }
  rewrite (calculateBlackjackScore_unfold hand Hwf),
          (calculateBlackjackScore_unfold _ Hwf').
  destruct (adjustAces_spec (highTotal hand) (aceCount hand))
    as (k & Hk & -> & Hstop & Hgt).
  destruct (adjustAces_spec (highTotal (hand ++ [c])) (aceCount (hand ++ [c])))
    as (k' & Hk' & -> & Hstop' & Hgt').
  pose proof (score_snoc_bounds hand c k k' Hk Hstop Hgt Hk' Hstop' Hgt') as [Hle _].
  revert Hk' Hstop' Hgt'. rewrite aceCount_snoc, highTotal_snoc.
  pose proof (blackjackPoints_bounds c) as [Hlow Hhigh].
  intros Hk' Hstop' Hgt'. split; [| lia].
  destruct (decide (k' <= k + 1)%nat) as [Hsmall | Hbig].
  - destruct (isAce c); lia.
  - assert (Hj : (k + 1 < k')%nat) by lia. pose proof (Hgt' _ Hj) as Hgt1.
    destruct (decide (k' = k + 2)%nat) as [-> | Hne].
    + destruct (isAce c); lia.
    + assert (Hj2 : (k + 2 < k')%nat) by lia. pose proof (Hgt' _ Hj2) as Hgt2.
      destruct (isAce c); destruct Hstop as [Hs | Hs]; lia.
Qed.

Lemma score_after_card_witness :
  calculateBlackjackScore [mkCard hearts RA 11; mkCard clubs RK 10] - 9
  <= calculateBlackjackScore ([mkCard hearts RA 11; mkCard clubs RK 10]
                              ++ [mkCard spades RA 11])
  <= calculateBlackjackScore [mkCard hearts RA 11; mkCard clubs RK 10] + 11.
Proof.
  apply (score_after_card [mkCard hearts RA 11; mkCard clubs RK 10]
           (mkCard spades RA 11)); by_decision.
Defined.

(** X4. Two cards of the deck never bust: their score is between 4 and 21,
    and it is 21 exactly when one is an ace and the other a ten, jack, queen
    or king. *)
Theorem two_card_score (c1 c2 : Card) :
  deckCard c1 -> deckCard c2 ->
  4 <= calculateBlackjackScore [c1; c2] <= 21 /\
  (calculateBlackjackScore [c1; c2] = 21 <->
   (rank c1 = RA /\ tenValued c2) \/ (tenValued c1 /\ rank c2 = RA)).
Proof.
  intros H1 H2. pose proof (deckCard_value c1 H1) as V1.
  pose proof (deckCard_value c2 H2) as V2.
  destruct c1 as [s1 r1 v1], c2 as [s2 r2 v2]. simpl in V1, V2. subst v1 v2.
  unfold tenValued. cbn [rank].
  destruct r1, r2; (split; [vm_compute; split; discriminate |]);
    (split;
     [ intros Hscore;
       first [ discriminate Hscore
             | left; split; [reflexivity | by_decision]
             | right; split; [by_decision | reflexivity] ]
     | intros [[Ha Ht] | [Ht Ha]];
       first [ reflexivity | discriminate Ha
             | exfalso; revert Ht; by_decision ] ]).
Qed.

Lemma two_card_score_witness :
  4 <= calculateBlackjackScore [mkCard hearts RA 11; mkCard clubs RA 11] <= 21.
Proof.
  apply (two_card_score (mkCard hearts RA 11) (mkCard clubs RA 11)); by_decision.
Defined.

(** ** Baccarat values of joined hands *)

Lemma calculateBaccaratValue_sum cards :
  calculateBaccaratValue cards
  = (foldr (fun c acc => baccaratPoints (rank c) + acc) 0 cards) mod 10.
Proof.
  unfold calculateBaccaratValue. rewrite baccarat_fold, Z.add_0_l.
  apply Z.rem_mod_nonneg; [apply baccaratPoints_sum_nonneg | lia].
Qed.

(** X5. Baccarat values add up modulo 10: the value of two lists of cards put
    together is the sum of their values modulo 10, and the value of a list
    does not depend on the order of its cards. *)
Theorem calculateBaccaratValue_app_perm (cards1 cards2 : list Card) :
  calculateBaccaratValue (cards1 ++ cards2)
  = (calculateBaccaratValue cards1 + calculateBaccaratValue cards2) mod 10 /\
  (Permutation cards1 cards2 ->
   calculateBaccaratValue cards1 = calculateBaccaratValue cards2).
Proof.
  split.
  - rewrite !calculateBaccaratValue_sum, foldr_app.
    assert (Hshift : forall l z,
      foldr (fun c acc => baccaratPoints (rank c) + acc) z l
      = foldr (fun c acc => baccaratPoints (rank c) + acc) 0 l + z).
    { induction l as [|c l IH]; intros z; simpl; [lia |]. rewrite IH. lia. }
    rewrite Hshift. apply Zplus_mod.
  - intros Hperm. rewrite !calculateBaccaratValue_sum. f_equal.
    induction Hperm as [|c l1 l2 _ IH|c1 c2 l|l1 l2 l3 _ IH1 _ IH2]; simpl;
      [reflexivity | now rewrite IH | lia | congruence].
Qed.

Lemma calculateBaccaratValue_app_perm_witness :
  calculateBaccaratValue [mkCard hearts R7 7; mkCard clubs R8 8]
  = calculateBaccaratValue [mkCard clubs R8 8; mkCard hearts R7 7].
Proof.
  apply (proj2 (calculateBaccaratValue_app_perm
                  [mkCard hearts R7 7; mkCard clubs R8 8]
                  [mkCard clubs R8 8; mkCard hearts R7 7])).
  apply perm_swap.
Defined.

(** ** The banker's rule table *)

(** X6. The banker's readiness to draw falls as the banker's value rises: if
    the banker draws on a third-card number at some banker value, the banker
    draws on it at every lower banker value too. *)
Theorem shouldBankerDrawThird_antitone (low high third : Z) :
  low <= high ->
  shouldBankerDrawThird high third = true ->
  shouldBankerDrawThird low third = true.
Proof.
  intros Hle. unfold shouldBankerDrawThird.
  destruct (7 <=? high) eqn:H7; [discriminate |]. apply Z.leb_gt in H7.
  destruct (low <=? 2) eqn:L2.
  { assert ((7 <=? low) = false) as -> by (apply Z.leb_gt; apply Z.leb_le in L2; lia).
    reflexivity. }
  apply Z.leb_gt in L2.
  assert ((7 <=? low) = false) as -> by (apply Z.leb_gt; lia).
  assert ((high <=? 2) = false) as -> by (apply Z.leb_gt; lia).
  assert (Hlow : low = 3 \/ low = 4 \/ low = 5 \/ low = 6) by lia.
  assert (Hhigh : high = 3 \/ high = 4 \/ high = 5 \/ high = 6) by lia.
  unfold includes.
  destruct Hlow as [-> | [-> | [-> | ->]]];
    destruct Hhigh as [-> | [-> | [-> | ->]]]; try lia;
    vm_compute (rules !! _); rewrite !bool_decide_eq_true, !elem_of_cons;
    intros H; repeat (destruct H as [-> | H]; [tauto |]);
    now apply elem_of_nil in H.
Qed.

Lemma shouldBankerDrawThird_antitone_witness :
  shouldBankerDrawThird 4 6 = true.
Proof.
  apply (shouldBankerDrawThird_antitone 4 6 6); [lia | reflexivity].
Defined.

(** X7. On the cards of the deck the [value] field, which [playBaccarat]
    passes to the rule, decides the banker's draw as the card's baccarat
    points would at every banker value but 3; at banker value 3 the two
    differ exactly on aces, tens and faces. *)
Theorem shouldBankerDrawThird_value_field (bankerValue : Z) (c : Card) :
  deckCard c ->
  (bankerValue <> 3 ->
   shouldBankerDrawThird bankerValue (value c)
   = shouldBankerDrawThird bankerValue (baccaratPoints (rank c))) /\
  (shouldBankerDrawThird 3 (value c)
   = shouldBankerDrawThird 3 (baccaratPoints (rank c))
   <-> rank c ∉ [RA; RT; RJ; RQ; RK]).
Proof.
  intros Hc. rewrite (deckCard_value c Hc). split.
  - intros Hne. unfold shouldBankerDrawThird.
    destruct (7 <=? bankerValue) eqn:H7; [reflexivity |]. apply Z.leb_gt in H7.
    destruct (bankerValue <=? 2) eqn:H2; [reflexivity |]. apply Z.leb_gt in H2.
    assert (Hcases : bankerValue = 4 \/ bankerValue = 5 \/ bankerValue = 6) by lia.
    destruct Hcases as [-> | [-> | ->]]; destruct (rank c); reflexivity.
  - destruct (rank c); split; intros H;
      first [ reflexivity | discriminate H | by_decision
            | exfalso; revert H; by_decision ].
Qed.

Lemma shouldBankerDrawThird_value_field_witness :
  shouldBankerDrawThird 5 (value (mkCard clubs RQ 10))
  = shouldBankerDrawThird 5 (baccaratPoints RQ).
Proof.
  apply (proj1 (shouldBankerDrawThird_value_field 5 (mkCard clubs RQ 10)
                  ltac:(by_decision))).
  lia.
Defined.

(** ** The wheel *)

Lemma wheel_number_cases (n : Z) : 1 <= n <= 36 -> n ∈ wheelNumbers.
Proof. intros H. unfold wheelNumbers. apply elem_of_seqZ. lia. Qed.

(** X8. On every number from 1 to 36 exactly one of a red and a black bet
    wins, exactly one of an odd and an even bet, and exactly one of a low and
    a high bet, whatever numbers, stake and multiplier the bets carry; the
    dozen and the column of the number are 1, 2 or 3. *)
Theorem outside_bets_complementary (n : Z) (b1 b2 : RouletteBet) :
  1 <= n <= 36 ->
  (betType b1 = redBet /\ betType b2 = blackBet) \/
  (betType b1 = odd /\ betType b2 = even) \/
  (betType b1 = low /\ betType b2 = high) ->
  checkRouletteBet b1 (generateRouletteResult n)
  = negb (checkRouletteBet b2 (generateRouletteResult n)) /\
  1 <= dozen (generateRouletteResult n) <= 3 /\
  1 <= column (generateRouletteResult n) <= 3.
Proof.
  intros Hn Htypes. apply wheel_number_cases in Hn.
  assert (Hall : Forall (fun n =>
    (bool_decide (color (generateRouletteResult n) = red)
     = negb (bool_decide (color (generateRouletteResult n) = black))) /\
    (isOdd (generateRouletteResult n)
       && negb (bool_decide (number (generateRouletteResult n) = 0))
     = negb (negb (isOdd (generateRouletteResult n))
             && negb (bool_decide (number (generateRouletteResult n) = 0)))) /\
    ((1 <=? number (generateRouletteResult n))
       && (number (generateRouletteResult n) <=? 18)
     = negb ((19 <=? number (generateRouletteResult n))
             && (number (generateRouletteResult n) <=? 36))) /\
    1 <= dozen (generateRouletteResult n) <= 3 /\
    1 <= column (generateRouletteResult n) <= 3) wheelNumbers).
  { by_decision. }
  rewrite Forall_forall in Hall. specialize (Hall n Hn).
  destruct Hall as (Hcolor & Hparity & Hhalf & Hdozen & Hcolumn).
  split; [| split; assumption].
  unfold checkRouletteBet.
  destruct Htypes as [[-> ->] | [[-> ->] | [-> ->]]]; assumption.
Qed.

Lemma outside_bets_complementary_witness :
  checkRouletteBet (mkRouletteBet redBet [] 5 2) (generateRouletteResult 23)
  = negb (checkRouletteBet (mkRouletteBet blackBet [] 7 2) (generateRouletteResult 23)).
Proof.
  apply (outside_bets_complementary 23 (mkRouletteBet redBet [] 5 2)
           (mkRouletteBet blackBet [] 7 2)).
  - lia.
  - left. split; reflexivity.
Defined.

(** X9. The wheel is balanced: of the numbers 1 to 36, 18 are red and 18
    black, 18 odd and 18 even, and each dozen and each column holds 12. *)
Theorem wheel_is_balanced :
  length (filter (fun n => color (generateRouletteResult n) = red) wheelNumbers) = 18%nat /\
  length (filter (fun n => color (generateRouletteResult n) = black) wheelNumbers) = 18%nat /\
  length (filter (fun n => isOdd (generateRouletteResult n) = true) wheelNumbers) = 18%nat /\
  length (filter (fun n => isOdd (generateRouletteResult n) = false) wheelNumbers) = 18%nat /\
  Forall (fun d =>
            length (filter (fun n => dozen (generateRouletteResult n) = d) wheelNumbers)
            = 12%nat /\
            length (filter (fun n => column (generateRouletteResult n) = d) wheelNumbers)
            = 12%nat)
         [1; 2; 3].
Proof.
  repeat (split; [vm_compute; reflexivity |]).
  repeat constructor; vm_compute; reflexivity.
Qed.

(** ** Roulette payouts *)




(** ** The table catalogue *)

Lemma tables_lookup (tid : string) (table : TableGame) :
  tables !! tid = Some table <->
  (tid = "blackjack-1"%string /\ table = blackjackTable) \/
  (tid = "roulette-1"%string /\ table = rouletteTable) \/
  (tid = "baccarat-1"%string /\ table = baccaratTable).
Proof.
  unfold tables, initializeTables. cbn [foldl tableId].
  rewrite !lookup_insert_Some, lookup_empty. split.
  - intros [[<- <-] | [_ [[<- <-] | [_ [[<- <-] | [_ H]]]]]];
      [right; right | right; left | left | discriminate H]; split; reflexivity.
  - intros [[-> ->] | [[-> ->] | [-> ->]]].
    + right. split; [discriminate |]. right. split; [discriminate |]. now left.
    + right. split; [discriminate |]. now left.
    + now left.
Qed.

Lemma tables_lookup_None (tid : string) :
  tables !! tid = None ->
  tid <> "blackjack-1"%string /\ tid <> "roulette-1"%string /\
  tid <> "baccarat-1"%string.
Proof.
  intros Hnone. repeat split; intros ->; revert Hnone; vm_compute; discriminate.
Qed.

Lemma resolveBlackjackHand_response playerId gameState ps response gameState' ps' :
  resolveBlackjackHand playerId gameState ps = Returns (response, gameState', ps') ->
  exists result playerScore dealerScore dealerHand' payout,
    response = Resolved result playerScore dealerScore dealerHand' payout.
Proof.
  unfold resolveBlackjackHand.
  destruct (dealerLoop _ _ _) as [[dh dk]|]; [| discriminate].
  cbn [mbind Completion_bind].
  destruct (scoringLookup _ _); [| discriminate]. cbn [mbind Completion_bind].
  destruct (scoring _ _); [| discriminate]. cbn [mbind Completion_bind].
  destruct (if 21 <? _ then _ else _) as [result payout].
  intros [= <- _ _]. now eexists _, _, _, _, _.
Qed.

Lemma blackjack_table_check shuffleArray e playerId tid action bet :
  (tid <> "blackjack-1"%string /\
   playBlackjack shuffleArray e playerId tid action bet
   = Returns (Failure "Invalid blackjack table", e)) \/
  (tid = "blackjack-1"%string /\
   forall e', playBlackjack shuffleArray e playerId tid action bet
              <> Returns (Failure "Invalid blackjack table", e')).
Proof.
  unfold playBlackjack.
  destruct (tables !! tid) as [table|] eqn:Htable.
  2: { left. split; [apply (tables_lookup_None tid Htable) | reflexivity]. }
  apply tables_lookup in Htable as [[-> ->] | [[-> ->] | [-> ->]]];
    cbn [type blackjackTable rouletteTable baccaratTable];
    try (left; split; [discriminate | reflexivity]).
  right. split; [reflexivity |]. intros e'.
  rewrite bool_decide_eq_true_2 by reflexivity. cbn [negb].
  destruct (getPlayer (players e) playerId) as [p|]; [| discriminate].
  destruct (String.eqb action "bet").
  { destruct (invalidBet bet blackjackTable); [discriminate |].
    unfold pop. destruct (scoring calculateBlackjackScore _); discriminate. }
  destruct (String.eqb action "hit").
  { destruct (playerHands _ !! playerId); [| discriminate].
    unfold pop. destruct (scoring calculateBlackjackScore _); discriminate. }
  destruct (String.eqb action "stand").
  { destruct (resolveBlackjackHand _ _ _) as [[[r gs] ps]|] eqn:Hres; [| discriminate].
    apply resolveBlackjackHand_response in Hres as (? & ? & ? & ? & ? & ->).
    discriminate. }
  destruct (String.eqb action "double"); [| discriminate].
  destruct (negb (canAffordWager _ _ _ _)); [discriminate |].
  destruct (playerHands _ !! playerId); [| discriminate].
  unfold pop.
  destruct (resolveBlackjackHand _ _ _) as [[[r gs] ps]|] eqn:Hres; [| discriminate].
  apply resolveBlackjackHand_response in Hres as (? & ? & ? & ? & ? & ->).
  discriminate.
Qed.

Lemma roulette_table_check n e playerId tid bets :
  (tid <> "roulette-1"%string /\
   playRoulette n e playerId tid bets
   = (RouletteFailure "Invalid roulette table", e)) \/
  (tid = "roulette-1"%string /\
   forall e', playRoulette n e playerId tid bets
              <> (RouletteFailure "Invalid roulette table", e')).
Proof.
  unfold playRoulette.
  destruct (tables !! tid) as [table|] eqn:Htable.
  2: { left. split; [apply (tables_lookup_None tid Htable) | reflexivity]. }
  apply tables_lookup in Htable as [[-> ->] | [[-> ->] | [-> ->]]];
    cbn [type blackjackTable rouletteTable baccaratTable];
    try (left; split; [discriminate | reflexivity]).
  right. split; [reflexivity |]. intros e'.
  rewrite bool_decide_eq_true_2 by reflexivity. cbn [negb].
  destruct (fold_left _ _ _) as [total results]. discriminate.
Qed.

Lemma baccarat_table_check shuffleArray e playerId tid side stake :
  (tid <> "baccarat-1"%string /\
   playBaccarat shuffleArray e playerId tid side stake
   = Returns (BaccaratFailure "Invalid baccarat table", e)) \/
  (tid = "baccarat-1"%string /\
   forall e', playBaccarat shuffleArray e playerId tid side stake
              <> Returns (BaccaratFailure "Invalid baccarat table", e')).
Proof.
  unfold playBaccarat.
  destruct (tables !! tid) as [table|] eqn:Htable.
  2: { left. split; [apply (tables_lookup_None tid Htable) | reflexivity]. }
  apply tables_lookup in Htable as [[-> ->] | [[-> ->] | [-> ->]]];
    cbn [type blackjackTable rouletteTable baccaratTable];
    try (left; split; [discriminate | reflexivity]).
  right. split; [reflexivity |]. intros e'.
  rewrite bool_decide_eq_true_2 by reflexivity. cbn [negb]. unfold pop.
  repeat (match goal with
          | |- (?c ≫= _) <> _ =>
              destruct c as [?|]; cbn [mbind Completion_bind]; [| discriminate]
          end).
  match goal with
  | |- ?lhs <> _ =>
      match lhs with context [match ?x with pair _ _ => _ end] =>
        destruct x as [[[pc pv] bc] bv] end
  end.
  discriminate.
Qed.

(** X11. Each game plays on its own table only: [playBlackjack] answers
    "Invalid blackjack table" exactly for the table ids other than
    "blackjack-1", [playRoulette] "Invalid roulette table" exactly for those
    other than "roulette-1" and [playBaccarat] "Invalid baccarat table"
    exactly for those other than "baccarat-1"; the answer comes with the
    engine unchanged. *)
Theorem games_accept_their_own_table
    (shuffleArray : Shuffle) (n : Z) (e : Engine) (playerId tid : string) :
  (forall action bet e',
     playBlackjack shuffleArray e playerId tid action bet
     = Returns (Failure "Invalid blackjack table", e')
     <-> tid <> "blackjack-1"%string /\ e' = e) /\
  (forall bets e',
     playRoulette n e playerId tid bets
     = (RouletteFailure "Invalid roulette table", e')
     <-> tid <> "roulette-1"%string /\ e' = e) /\
  (forall side stake e',
     playBaccarat shuffleArray e playerId tid side stake
     = Returns (BaccaratFailure "Invalid baccarat table", e')
     <-> tid <> "baccarat-1"%string /\ e' = e).
Proof.
  split; [| split].
  - intros action bet e'.
    destruct (blackjack_table_check shuffleArray e playerId tid action bet)
      as [[Hne Heq] | [Htid Hno]].
    + rewrite Heq. split; [intros [= <-]; now split | intros [_ ->]; reflexivity].
    + split; [intros H; now apply Hno in H | intros [Hne _]; contradiction].
  - intros bets e'.
    destruct (roulette_table_check n e playerId tid bets) as [[Hne Heq] | [Htid Hno]].
    + rewrite Heq. split; [intros [= <-]; now split | intros [_ ->]; reflexivity].
    + split; [intros H; now apply Hno in H | intros [Hne _]; contradiction].
  - intros side stake e'.
    destruct (baccarat_table_check shuffleArray e playerId tid side stake)
      as [[Hne Heq] | [Htid Hno]].
    + rewrite Heq. split; [intros [= <-]; now split | intros [_ ->]; reflexivity].
    + split; [intros H; now apply Hno in H | intros [Hne _]; contradiction].
Qed.

Lemma games_accept_their_own_table_witness :
  playRoulette 7 lobby "alice" "blackjack-1" [mkRouletteBet redBet [] 1 2]
  = (RouletteFailure "Invalid roulette table", lobby).
Proof.
  apply (proj1 (proj2 (games_accept_their_own_table (fun l => l) 7 lobby "alice"
                         "blackjack-1"))).
  split; [discriminate | reflexivity].
Defined.

(** X12. The catalogue holds three tables, each under its own id: a table
    is listed by [getTables] exactly when [getTable] finds it under its id,
    [getTable] finds nothing under any id but the three, and the table found
    under an id carries that id. *)
Theorem catalogue_round_trip :
  length getTables = 3%nat /\
  (forall table, table ∈ getTables <-> getTable (tableId table) = Some table) /\
  (forall tid table, getTable tid = Some table -> tableId table = tid) /\
  (forall tid, getTable tid = None <->
               tid ∉ ["blackjack-1"; "roulette-1"; "baccarat-1"]%string) /\
  (forall table, table ∈ [blackjackTable; rouletteTable; baccaratTable] ->
                 table ∈ getTables).
Proof.
  assert (Hid : forall tid table, getTable tid = Some table -> tableId table = tid).
  { intros tid table H. apply tables_lookup in H as [[-> ->] | [[-> ->] | [-> ->]]];
      reflexivity. }
  assert (Hlisted : forall table,
            table ∈ getTables <-> getTable (tableId table) = Some table).
  { intros table. unfold getTables, getTable. rewrite list_elem_of_fmap. split.
    - intros ([tid t] & -> & Hin). apply elem_of_map_to_list in Hin. simpl.
      now rewrite (Hid tid t Hin).
    - intros H. exists (tableId table, table). split; [reflexivity |].
      now apply elem_of_map_to_list. }
  split; [vm_compute; reflexivity |]. split; [exact Hlisted |].
  split; [exact Hid |]. split.
  - intros tid. unfold getTable. rewrite !not_elem_of_cons. split.
    + intros H. destruct (tables_lookup_None tid H) as (H1 & H2 & H3).
      repeat split; try assumption. apply not_elem_of_nil.
    + intros (H1 & H2 & H3 & _). destruct (tables !! tid) as [t|] eqn:E;
        [| reflexivity].
      apply tables_lookup in E as [[-> _] | [[-> _] | [-> _]]]; contradiction.
  - intros table Hin. apply Hlisted. unfold getTable. apply tables_lookup.
    rewrite !elem_of_cons in Hin.
    destruct Hin as [-> | [-> | [-> | Hnil]]];
      [left | right; left | right; right |]; try (split; reflexivity).
    now apply elem_of_nil in Hnil.
Qed.

Lemma catalogue_round_trip_witness :
  getTable "roulette-1" = Some rouletteTable /\ rouletteTable ∈ getTables.
Proof.
  destruct catalogue_round_trip as (_ & Hlisted & _).
  assert (H : getTable (tableId rouletteTable) = Some rouletteTable)
    by (vm_compute; reflexivity).
  split; [exact H | exact (proj2 (Hlisted rouletteTable) H)].
Defined.

(** X13. [joinTable] succeeds exactly when the table id is one of the three
    and the player is registered, however many players there are: the
    table's [maxPlayers] is not consulted. An unknown table is reported
    before an unknown player. *)
Theorem joinTable_outcomes (e : Engine) (playerId tid : string) :
  (joinTable e playerId tid = Joined <->
   tid ∈ ["blackjack-1"; "roulette-1"; "baccarat-1"]%string /\
   is_Some (players e !! playerId)) /\
  (joinTable e playerId tid = JoinFailure "Table not found" <->
   tid ∉ ["blackjack-1"; "roulette-1"; "baccarat-1"]%string) /\
  (joinTable e playerId tid = JoinFailure "Player not found" <->
   tid ∈ ["blackjack-1"; "roulette-1"; "baccarat-1"]%string /\
   players e !! playerId = None).
Proof.
  unfold joinTable, getPlayer.
  assert (Hknown : tid ∈ ["blackjack-1"; "roulette-1"; "baccarat-1"]%string
                   <-> is_Some (tables !! tid)).
  { rewrite !elem_of_cons. split.
    - intros [-> | [-> | [-> | Hnil]]]; try (eexists; vm_compute; reflexivity).
      now apply elem_of_nil in Hnil.
    - intros [t Ht]. apply tables_lookup in Ht as [[-> _] | [[-> _] | [-> _]]]; tauto. }
  rewrite Hknown.
  destruct (tables !! tid) as [t|]; destruct (players e !! playerId) as [p|];
    repeat split; try discriminate; try tauto;
    try (intros [[? ?] [? ?]]; discriminate);
    try (intros [[? ?] ?]; discriminate);
    try (intros [? [? ?]]; discriminate);
    try (intros H; exfalso; apply H; now eexists);
    try (intros _; split; now eexists);
    try (intros _ [? ?]; discriminate);
    try (now eexists).
Qed.

Lemma joinTable_outcomes_witness :
  joinTable lobby "alice" "baccarat-1" = Joined.
Proof.
  apply (proj1 (joinTable_outcomes lobby "alice" "baccarat-1")).
  split; [by_decision | exists alice; vm_compute; reflexivity].
Defined.

(** ** Blackjack errors *)

(** X14. A failure of [playBlackjack] changes nothing: whenever it answers
    with [success: false], the engine is the one it was called on and the
    message is one of the six of the source. On the blackjack table an
    unregistered player is told "Player not found" whatever the action is,
    and a registered player gets "Invalid action" for every action string
    other than "bet", "hit", "stand" and "double". *)
Theorem playBlackjack_failure_changes_nothing
    (shuffleArray : Shuffle) (e : Engine) (playerId tid action : string)
    (bet : option Q) :
  (forall msg e',
     playBlackjack shuffleArray e playerId tid action bet = Returns (Failure msg, e') ->
     e' = e /\
     msg ∈ ["Invalid blackjack table"; "Player not found"; "Invalid bet amount";
            "No active hand"; "Insufficient funds to double"; "Invalid action"]%string) /\
  (tid = "blackjack-1"%string -> players e !! playerId = None ->
   playBlackjack shuffleArray e playerId tid action bet
   = Returns (Failure "Player not found", e)) /\
  (tid = "blackjack-1"%string -> is_Some (players e !! playerId) ->
   action ∉ ["bet"; "hit"; "stand"; "double"]%string ->
   playBlackjack shuffleArray e playerId tid action bet
   = Returns (Failure "Invalid action", e)).
Proof.
  split; [| split].
  - intros msg e'. unfold playBlackjack.
    destruct (tables !! tid) as [table|]; [| intros [= <- <-]; split; [easy | by_decision]].
    destruct (negb (bool_decide (type table = blackjack)));
      [intros [= <- <-]; split; [easy | by_decision] |].
    destruct (getPlayer (players e) playerId) as [p|];
      [| intros [= <- <-]; split; [easy | by_decision]].
    destruct (String.eqb action "bet").
    { destruct (invalidBet bet table);
        [intros [= <- <-]; split; [easy | by_decision] |].
      unfold pop. destruct (scoring calculateBlackjackScore _); discriminate. }
    destruct (String.eqb action "hit").
    { destruct (playerHands _ !! playerId);
        [| intros [= <- <-]; split; [easy | by_decision]].
      unfold pop. destruct (scoring calculateBlackjackScore _); discriminate. }
    destruct (String.eqb action "stand").
    { destruct (resolveBlackjackHand _ _ _) as [[[r gs] ps]|] eqn:Hres; [| discriminate].
      apply resolveBlackjackHand_response in Hres as (? & ? & ? & ? & ? & ->).
      discriminate. }
    destruct (String.eqb action "double");
      [| intros [= <- <-]; split; [easy | by_decision]].
    destruct (negb (canAffordWager _ _ _ _));
      [intros [= <- <-]; split; [easy | by_decision] |].
    destruct (playerHands _ !! playerId);
      [| intros [= <- <-]; split; [easy | by_decision]].
    unfold pop.
    destruct (resolveBlackjackHand _ _ _) as [[[r gs] ps]|] eqn:Hres; [| discriminate].
    apply resolveBlackjackHand_response in Hres as (? & ? & ? & ? & ? & ->).
    discriminate.
  - intros -> Hnone. unfold playBlackjack, getPlayer.
    assert (Htab : tables !! "blackjack-1"%string = Some blackjackTable)
      by (vm_compute; reflexivity).
    rewrite Htab, Hnone. reflexivity.
  - intros -> [p Hp] Haction. unfold playBlackjack, getPlayer.
    assert (Htab : tables !! "blackjack-1"%string = Some blackjackTable)
      by (vm_compute; reflexivity).
    rewrite Htab, Hp. cbn [type blackjackTable].
    rewrite bool_decide_eq_true_2 by reflexivity. cbn [negb].
    rewrite !not_elem_of_cons in Haction.
    destruct Haction as (H1 & H2 & H3 & H4 & _).
    apply String.eqb_neq in H1, H2, H3, H4. now rewrite H1, H2, H3, H4.
Qed.

Lemma playBlackjack_failure_changes_nothing_witness :
  playBlackjack (fun l => l) lobby "alice" "blackjack-1" "split" None
  = Returns (Failure "Invalid action", lobby).
Proof.
  apply (proj2 (proj2 (playBlackjack_failure_changes_nothing
                         (fun l => l) lobby "alice" "blackjack-1" "split" None))).
  - reflexivity.
  - exists alice. vm_compute. reflexivity.
  - by_decision.
Defined.

(** ** The bet *)

Lemma Qltb_ge (x y : Q) : Qltb x y = false <-> (y <= x)%Q.
Proof.
  split.
  - intros H. apply Qnot_lt_le. intros Hlt. apply Qltb_lt in Hlt. congruence.
  - intros H. destruct (Qltb x y) eqn:E; [| reflexivity].
    apply Qltb_lt in E. exfalso. exact (Qlt_not_le _ _ E H).
Qed.

(** X15. A bet within the limits on a table without a stored state deals
    from the end of the shuffled deck: the last two cards to the player, the
    next one is the dealer's card shown, and the score reported is that of
    the player's two cards. The call records the bet as the player's
    [currentBet] and leaves the player's balance, the other players and the
    state store as they were: the stake is not taken from the balance. *)
Theorem bet_deals_and_keeps_balance
    (shuffleArray : Shuffle) (e : Engine) (playerId tid : string)
    (table : TableGame) (b : Q) (p : TablePlayer) :
  IsShuffle shuffleArray ->
  tables !! tid = Some table -> type table = blackjack ->
  gameStates e !! tid = None ->
  players e !! playerId = Some p ->
  (gc (minBet table) <= b)%Q -> (b <= gc (maxBet table))%Q ->
  exists rest c4 c3 c2 c1,
    createDeck shuffleArray = rest ++ [c4; c3; c2; c1] /\
    playBlackjack shuffleArray e playerId tid "bet" (Some b)
    = Returns (Dealt [Some c1; Some c2] (Some c3) (calculateBlackjackScore [c1; c2]),
               mkEngine (gameStates e)
                 (<[playerId := mkPlayer (balance p) (Some b)]> (players e))).
Proof.
  intros Hshuffle Htable Htype Hfresh Hp Hmin Hmax.
  pose proof (blackjack_table_unique tid table Htable Htype) as ->.
  cbn [gc minBet maxBet blackjackTable] in Hmin, Hmax.
  destruct (last_six (createDeck shuffleArray))
    as (rest & c6 & c5 & c4 & c3 & c2 & c1 & Hdeck).
  { unfold createDeck. rewrite <- (Permutation_length (Hshuffle orderedDeck)).
    simpl. lia. }
  exists ((rest ++ [c6]) ++ [c5]), c4, c3, c2, c1. split.
  { rewrite Hdeck, <- !app_assoc. reflexivity. }
  unfold playBlackjack, getPlayer. rewrite Htable, Hfresh, Hp.
  cbn [type blackjackTable default freshState deck]. rewrite Hdeck.
  rewrite bool_decide_eq_true_2 by reflexivity. cbn [negb].
  change (String.eqb "bet" "bet") with true. cbv iota.
  assert (Hvalid : invalidBet (Some b) blackjackTable = false).
  { unfold invalidBet. cbn [gc minBet maxBet blackjackTable].
    rewrite !orb_false_iff, !Qltb_ge. repeat split; try assumption.
    destruct (Qeq_bool b 0) eqn:E; [| reflexivity].
    apply Qeq_bool_iff in E. rewrite E in Hmin. exfalso.
    revert Hmin. vm_compute. tauto. }
  rewrite Hvalid, !pop_snoc. unfold scoring.
  cbn [definedCards fmap option_fmap option_map mbind Completion_bind].
  reflexivity.
Qed.

Lemma bet_deals_and_keeps_balance_witness :
  exists response e',
    playBlackjack (fun l => rev l) lobby "alice" "blackjack-1" "bet" (Some 25%Q)
    = Returns (response, e') /\
    goldOf (players e') "alice" = goldOf (players lobby) "alice".
Proof.
  destruct (bet_deals_and_keeps_balance (fun l => rev l) lobby "alice" "blackjack-1"
              blackjackTable 25%Q alice)
    as (rest & c4 & c3 & c2 & c1 & _ & Heq).
  - intros l. apply Permutation_rev.
  - vm_compute. reflexivity.
  - reflexivity.
  - reflexivity.
  - vm_compute. reflexivity.
  - vm_compute. discriminate.
  - vm_compute. discriminate.
  - eexists _, _. split; [exact Heq |]. vm_compute. reflexivity.
Defined.

(** ** Reachable engines *)

Lemma playRoulette_store n e playerId tid bets response e' :
  playRoulette n e playerId tid bets = (response, e') ->
  gameStates e' = gameStates e.
Proof.
  unfold playRoulette. destruct (tables !! tid) as [table|]; [| now intros [= _ <-]].
  destruct (negb _); [now intros [= _ <-] |].
  destruct (fold_left _ _ _) as [total results]. now intros [= _ <-].
Qed.

Lemma playBaccarat_store shuffleArray e playerId tid side stake response e' :
  playBaccarat shuffleArray e playerId tid side stake = Returns (response, e') ->
  gameStates e' = gameStates e.
Proof.
  unfold playBaccarat. destruct (tables !! tid) as [table|]; [| now intros [= _ <-]].
  destruct (negb _); [now intros [= _ <-] |]. unfold pop.
  repeat (match goal with
          | |- (?c ≫= _) = _ -> _ =>
              destruct c as [?|]; cbn [mbind Completion_bind]; [| discriminate]
          end).
  match goal with
  | |- ?lhs = _ -> _ =>
      match lhs with context [match ?x with pair _ _ => _ end] =>
        destruct x as [[[pc pv] bc] bv] end
  end.
  now intros [= _ <-].
Qed.

Lemma reachable_store_empty e : reachable e -> gameStates e = ∅.
Proof.
  induction 1 as [ps | e ps _ IH | e s pid tid a b r e' _ IH Hcall
                  | e n pid tid bets r e' _ IH Hcall
                  | e s pid tid side stake r e' _ IH Hcall].
  - reflexivity.
  - exact IH.
  - rewrite (playBlackjack_store_untouched s e e' pid tid a b r); [exact IH | | exact Hcall].
    rewrite IH. apply lookup_empty.
  - now rewrite (playRoulette_store _ _ _ _ _ _ _ Hcall).
  - now rewrite (playBaccarat_store _ _ _ _ _ _ _ _ Hcall).
Qed.

(** X16. No call of the three games ever enters a round state in the store:
    in every engine reached from a new one the store is empty, and
    [getGameState] reports no state, for whatever player id. *)
Theorem store_stays_empty (e : Engine) :
  reachable e ->
  gameStates e = ∅ /\
  forall playerId, (getGameState e playerId).2 = None.
Proof.
  intros Hreach. pose proof (reachable_store_empty e Hreach) as Hempty.
  split; [exact Hempty |]. intros [id|]; [| reflexivity].
  unfold getGameState. cbn [snd]. rewrite Hempty.
  destruct (bool_decide (id = ""%string)); [reflexivity | apply lookup_empty].
Qed.

Lemma store_stays_empty_witness :
  exists e, reachable e /\ goldOf (players e) "alice" = Some 1020%Q /\
            gameStates e = ∅.
Proof.
  assert (Hreach : reachable
            (playRoulette 23 lobby "alice" "roulette-1" [mkRouletteBet redBet [] 10 2]).2).
  { apply (reach_roulette lobby 23 "alice" "roulette-1" [mkRouletteBet redBet [] 10 2]
             (playRoulette 23 lobby "alice" "roulette-1" [mkRouletteBet redBet [] 10 2]).1).
    - apply reach_new.
    - now destruct (playRoulette _ _ _ _ _). }
  eexists. split; [exact Hreach |]. split; [vm_compute; reflexivity |].
  exact (proj1 (store_stays_empty _ Hreach)).
Defined.

(** X17. In every engine reached from a new one, for a registered player on
    the blackjack table: "hit" answers "No active hand", "double" answers
    "Insufficient funds to double" or "No active hand", both with the engine
    unchanged, and "stand" ends with a [TypeError]. No round dealt by "bet"
    can be continued. *)
Theorem no_round_continues (shuffleArray : Shuffle) (e : Engine)
    (playerId : string) (bet : option Q) :
  reachable e ->
  is_Some (players e !! playerId) ->
  playBlackjack shuffleArray e playerId "blackjack-1" "hit" bet
  = Returns (Failure "No active hand", e) /\
  (playBlackjack shuffleArray e playerId "blackjack-1" "double" bet
   = Returns (Failure "Insufficient funds to double", e) \/
   playBlackjack shuffleArray e playerId "blackjack-1" "double" bet
   = Returns (Failure "No active hand", e)) /\
  playBlackjack shuffleArray e playerId "blackjack-1" "stand" bet = Throws TypeError.
Proof.
  intros Hreach [p Hp]. pose proof (reachable_store_empty e Hreach) as Hempty.
  assert (Htab : tables !! "blackjack-1"%string = Some blackjackTable)
    by (vm_compute; reflexivity).
  unfold playBlackjack, getPlayer. rewrite Htab, Hp, Hempty, lookup_empty.
  cbn [type blackjackTable default freshState playerHands].
  rewrite bool_decide_eq_true_2 by reflexivity. cbn [negb].
  change (String.eqb "hit" "bet") with false.
  change (String.eqb "hit" "hit") with true.
  change (String.eqb "double" "bet") with false.
  change (String.eqb "double" "hit") with false.
  change (String.eqb "double" "stand") with false.
  change (String.eqb "double" "double") with true.
  change (String.eqb "stand" "bet") with false.
  change (String.eqb "stand" "hit") with false.
  change (String.eqb "stand" "stand") with true.
  cbv iota. rewrite lookup_empty. split; [reflexivity |]. split.
  - destruct (negb (canAffordWager _ _ _ _)); [now left | now right].
  - rewrite resolveBlackjackHand_no_hand; [reflexivity | apply lookup_empty].
Qed.

Lemma no_round_continues_witness :
  playBlackjack (fun l => l) lobby "alice" "blackjack-1" "hit" None
  = Returns (Failure "No active hand", lobby).
Proof.
  apply (proj1 (no_round_continues (fun l => l) lobby "alice" None
                  (reach_new _) (ex_intro _ alice eq_refl))).
Defined.

(** X18. Blackjack never pays: in every engine reached from a new one, a
    call of [playBlackjack] that returns leaves the balance of every player
    as it was and does not return a resolved round. *)
Theorem blackjack_never_pays (shuffleArray : Shuffle) (e e' : Engine)
    (playerId tid action : string) (bet : option Q) (response : BlackjackResponse) :
  reachable e ->
  playBlackjack shuffleArray e playerId tid action bet = Returns (response, e') ->
  (forall q, balance <$> players e' !! q = balance <$> players e !! q) /\
  (forall result playerScore dealerScore dealerHand payout,
     response <> Resolved result playerScore dealerScore dealerHand payout).
Proof.
  intros Hreach. pose proof (reachable_store_empty e Hreach) as Hempty.
  unfold playBlackjack, getPlayer. rewrite Hempty, lookup_empty.
  cbn [default freshState playerHands].
  destruct (tables !! tid) as [table|]; [| now intros [= <- <-]].
  destruct (negb (bool_decide (type table = blackjack))); [now intros [= <- <-] |].
  destruct (players e !! playerId) as [p|] eqn:Hp; [| now intros [= <- <-]].
  destruct (String.eqb action "bet").
  { destruct (invalidBet bet table); [now intros [= <- <-] |].
    unfold pop. destruct (scoring calculateBlackjackScore _); [| discriminate].
    cbn [mbind Completion_bind]. intros [= <- <-]. split; [| discriminate].
    intros q. cbn [players]. destruct (decide (playerId = q)) as [<- | Hne].
    - now rewrite lookup_insert_eq, Hp.
    - now rewrite lookup_insert_ne. }
  destruct (String.eqb action "hit").
  { rewrite lookup_empty. now intros [= <- <-]. }
  destruct (String.eqb action "stand").
  { rewrite resolveBlackjackHand_no_hand by apply lookup_empty. discriminate. }
  destruct (String.eqb action "double"); [| now intros [= <- <-]].
  destruct (negb (canAffordWager _ _ _ _)); [now intros [= <- <-] |].
  rewrite lookup_empty. now intros [= <- <-].
Qed.

Lemma blackjack_never_pays_witness :
  balance <$> players
    (mkEngine ∅ {[ "alice"%string := mkPlayer (mkBalance 1000 0) (Some 10%Q) ]})
    !! "alice"%string
  = balance <$> players lobby !! "alice"%string.
Proof.
  assert (Hbet :
    playBlackjack (fun l => rev l) lobby "alice" "blackjack-1" "bet" (Some 10%Q)
    = Returns (Dealt [Some (mkCard hearts RA 11); Some (mkCard hearts R2 2)]
                 (Some (mkCard hearts R3 3)) 13,
               mkEngine ∅ {[ "alice"%string := mkPlayer (mkBalance 1000 0) (Some 10%Q) ]})).
  { vm_compute. reflexivity. }
  exact (proj1 (blackjack_never_pays _ _ _ _ _ _ _ _ (reach_new _) Hbet) "alice"%string).
Defined.

(** ** The dealer's final score *)




(** ** A round of baccarat *)

Lemma thirdCards_deal (p1 p2 b1 b2 c5 c6 : Card) (rest : list Card) :
  exists pcs bcs,
    thirdCards [Some p1; Some p2] [Some b1; Some b2]
      (calculateBaccaratValue [p1; p2]) (calculateBaccaratValue [b1; b2])
      ((rest ++ [c6]) ++ [c5])
    = Returns (Some <$> pcs, calculateBaccaratValue pcs,
               Some <$> bcs, calculateBaccaratValue bcs) /\
    (8 <= calculateBaccaratValue [p1; p2] \/ 8 <= calculateBaccaratValue [b1; b2] ->
     pcs = [p1; p2] /\ bcs = [b1; b2]) /\
    (calculateBaccaratValue [p1; p2] < 8 -> calculateBaccaratValue [b1; b2] < 8 ->
     calculateBaccaratValue [p1; p2] <= 5 ->
     pcs = [p1; p2; c5] /\
     (shouldBankerDrawThird (calculateBaccaratValue [b1; b2]) (value c5) = true ->
      bcs = [b1; b2; c6]) /\
     (shouldBankerDrawThird (calculateBaccaratValue [b1; b2]) (value c5) = false ->
      bcs = [b1; b2])) /\
    (calculateBaccaratValue [p1; p2] < 8 -> calculateBaccaratValue [b1; b2] < 8 ->
     6 <= calculateBaccaratValue [p1; p2] ->
     pcs = [p1; p2] /\
     (calculateBaccaratValue [b1; b2] <= 5 -> bcs = [b1; b2; c5]) /\
     (6 <= calculateBaccaratValue [b1; b2] -> bcs = [b1; b2])).
Proof.
  unfold thirdCards.
  set (pv := calculateBaccaratValue [p1; p2]).
  set (bv := calculateBaccaratValue [b1; b2]).
  destruct (8 <=? pv) eqn:Ep; [| destruct (8 <=? bv) eqn:Eb];
    rewrite ?Z.leb_le, ?Z.leb_gt in *; cbn [negb andb].
  1, 2: exists [p1; p2], [b1; b2]; split; [reflexivity |];
        repeat split; intros; first [reflexivity | lia].
  destruct (pv <=? 5) eqn:E5; rewrite ?Z.leb_le, ?Z.leb_gt in *.
  - rewrite !pop_snoc. cbn [app]. unfold scoring at 1.
    cbn [definedCards fmap option_fmap option_map mbind Completion_bind].
    destruct (shouldBankerDrawThird bv (value c5)) eqn:Edraw.
    + unfold scoring.
      cbn [definedCards fmap option_fmap option_map mbind Completion_bind].
      exists [p1; p2; c5], [b1; b2; c6]. split; [reflexivity |].
      repeat split; intros; first [reflexivity | lia | discriminate].
    + exists [p1; p2; c5], [b1; b2]. split; [reflexivity |].
      repeat split; intros; first [reflexivity | lia | discriminate].
  - destruct (bv <=? 5) eqn:Eb5; rewrite ?Z.leb_le, ?Z.leb_gt in *.
    + rewrite pop_snoc. cbn [app]. unfold scoring.
      cbn [definedCards fmap option_fmap option_map mbind Completion_bind].
      exists [p1; p2], [b1; b2; c5]. split; [reflexivity |].
      repeat split; intros; first [reflexivity | lia].
    + exists [p1; p2], [b1; b2]. split; [reflexivity |].
      repeat split; intros; first [reflexivity | lia].
Qed.

Lemma playBaccarat_round (shuffleArray : Shuffle) (e : Engine)
    (playerId tid : string) (table : TableGame) (side : Side) (stake : Q) :
  IsShuffle shuffleArray ->
  tables !! tid = Some table -> type table = baccarat ->
  exists rest c6 c5 b2 b1 p2 p1 pcs bcs,
    createDeck shuffleArray
    = (((((rest ++ [c6]) ++ [c5]) ++ [b2]) ++ [b1]) ++ [p2]) ++ [p1] /\
    (8 <= calculateBaccaratValue [p1; p2] \/ 8 <= calculateBaccaratValue [b1; b2] ->
     pcs = [p1; p2] /\ bcs = [b1; b2]) /\
    (calculateBaccaratValue [p1; p2] < 8 -> calculateBaccaratValue [b1; b2] < 8 ->
     calculateBaccaratValue [p1; p2] <= 5 ->
     pcs = [p1; p2; c5] /\
     (shouldBankerDrawThird (calculateBaccaratValue [b1; b2]) (value c5) = true ->
      bcs = [b1; b2; c6]) /\
     (shouldBankerDrawThird (calculateBaccaratValue [b1; b2]) (value c5) = false ->
      bcs = [b1; b2])) /\
    (calculateBaccaratValue [p1; p2] < 8 -> calculateBaccaratValue [b1; b2] < 8 ->
     6 <= calculateBaccaratValue [p1; p2] ->
     pcs = [p1; p2] /\
     (calculateBaccaratValue [b1; b2] <= 5 -> bcs = [b1; b2; c5]) /\
     (6 <= calculateBaccaratValue [b1; b2] -> bcs = [b1; b2])) /\
    playBaccarat shuffleArray e playerId tid side stake
    = let pv := calculateBaccaratValue pcs in
      let bv := calculateBaccaratValue bcs in
      let winner := if bv <? pv then player else if pv <? bv then banker else tie in
      let payout :=
        if bool_decide (side = winner) then
          match side with
          | player => (stake * 2)%Q
          | banker => (stake * 1.95)%Q
          | tie => (stake * 9)%Q
          end
        else 0%Q in
      Returns
        (BaccaratOutcome
           (mkBaccaratResult
              (mkBaccaratHand (Some <$> pcs) pv (8 <=? calculateBaccaratValue [p1; p2]))
              (mkBaccaratHand (Some <$> bcs) bv (8 <=? calculateBaccaratValue [b1; b2]))
              winner)
           payout side stake,
         mkEngine (gameStates e)
           (if Qltb 0 payout then addBalance playerId payout GC (players e)
            else players e)).
Proof.
  intros Hshuffle Htable Htype.
  destruct (last_six (createDeck shuffleArray))
    as (rest & c6 & c5 & b2 & b1 & p2 & p1 & Hdeck).
  { unfold createDeck. rewrite <- (Permutation_length (Hshuffle orderedDeck)).
    simpl. lia. }
  destruct (thirdCards_deal p1 p2 b1 b2 c5 c6 rest)
    as (pcs & bcs & Hthird & Hnat & Hdraw & Hstand).
  exists rest, c6, c5, b2, b1, p2, p1, pcs, bcs.
  split; [exact Hdeck |]. split; [exact Hnat |]. split; [exact Hdraw |].
  split; [exact Hstand |].
  unfold playBaccarat. rewrite Htable, Htype, Hdeck.
  rewrite bool_decide_eq_true_2 by reflexivity. cbn [negb].
  rewrite !pop_snoc. unfold scoring at 1 2.
  cbn [definedCards fmap option_fmap option_map mbind Completion_bind].
  rewrite Hthird. reflexivity.
Qed.

Lemma createDeck_NoDup (shuffleArray : Shuffle) :
  IsShuffle shuffleArray -> NoDup (createDeck shuffleArray).
Proof.
  intros Hshuffle. unfold createDeck. rewrite <- (Hshuffle orderedDeck). by_decision.
Qed.

Lemma six_distinct (rest : list Card) (c6 c5 b2 b1 p2 p1 : Card) :
  NoDup ((((((rest ++ [c6]) ++ [c5]) ++ [b2]) ++ [b1]) ++ [p2]) ++ [p1]) ->
  NoDup [p1; p2; c5; b1; b2; c6].
Proof.
  rewrite <- !app_assoc. cbn [app]. intros H.
  apply NoDup_app in H as (_ & _ & H).
  rewrite !NoDup_cons, !not_elem_of_cons in H.
  rewrite !NoDup_cons, !not_elem_of_cons.
  destruct H as ((H65 & H62 & H61 & H6q & H6p & _) & (H52 & H51 & H5q & H5p & _)
                 & (H21 & H2q & H2p & _) & (H1q & H1p & _) & (Hqp & _) & _).
  repeat split; try apply not_elem_of_nil; try apply NoDup_nil_2; congruence.
Qed.

Lemma baccarat_shapes (p1 p2 b1 b2 c5 c6 : Card) (pcs bcs : list Card) :
  (8 <= calculateBaccaratValue [p1; p2] \/ 8 <= calculateBaccaratValue [b1; b2] ->
   pcs = [p1; p2] /\ bcs = [b1; b2]) ->
  (calculateBaccaratValue [p1; p2] < 8 -> calculateBaccaratValue [b1; b2] < 8 ->
   calculateBaccaratValue [p1; p2] <= 5 ->
   pcs = [p1; p2; c5] /\
   (shouldBankerDrawThird (calculateBaccaratValue [b1; b2]) (value c5) = true ->
    bcs = [b1; b2; c6]) /\
   (shouldBankerDrawThird (calculateBaccaratValue [b1; b2]) (value c5) = false ->
    bcs = [b1; b2])) ->
  (calculateBaccaratValue [p1; p2] < 8 -> calculateBaccaratValue [b1; b2] < 8 ->
   6 <= calculateBaccaratValue [p1; p2] ->
   pcs = [p1; p2] /\
   (calculateBaccaratValue [b1; b2] <= 5 -> bcs = [b1; b2; c5]) /\
   (6 <= calculateBaccaratValue [b1; b2] -> bcs = [b1; b2])) ->
  (pcs = [p1; p2] /\ bcs = [b1; b2]) \/
  (pcs = [p1; p2; c5] /\ bcs = [b1; b2; c6]) \/
  (pcs = [p1; p2; c5] /\ bcs = [b1; b2]) \/
  (pcs = [p1; p2] /\ bcs = [b1; b2; c5]).
Proof.
  intros Hnat Hdraw Hstand.
  destruct (decide (8 <= calculateBaccaratValue [p1; p2])) as [|Hp];
    [left; apply Hnat; now left |].
  destruct (decide (8 <= calculateBaccaratValue [b1; b2])) as [|Hb];
    [left; apply Hnat; now right |].
  destruct (decide (calculateBaccaratValue [p1; p2] <= 5)) as [H5|H6].
  - destruct (Hdraw ltac:(lia) ltac:(lia) H5) as (-> & Hyes & Hno).
    destruct (shouldBankerDrawThird _ _);
      [right; left; split; [reflexivity | now apply Hyes]
      | right; right; left; split; [reflexivity | now apply Hno]].
  - destruct (Hstand ltac:(lia) ltac:(lia) ltac:(lia)) as (-> & Hyes & Hno).
    destruct (decide (calculateBaccaratValue [b1; b2] <= 5)) as [Hb5|Hb6].
    + right; right; right. split; [reflexivity | now apply Hyes].
    + left. split; [reflexivity | apply Hno; lia].
Qed.

Lemma calculateBaccaratValue_range cards : 0 <= calculateBaccaratValue cards <= 9.
Proof.
  rewrite calculateBaccaratValue_sum.
  pose proof (Z.mod_pos_bound
                (foldr (fun c acc => baccaratPoints (rank c) + acc) 0 cards) 10).
  lia.
Qed.

(** X20. A round of baccarat deals no card twice: the cards of the two
    hands of the outcome are pairwise different cards of the shuffled deck,
    and each hand holds two or three of them. The outcome repeats the bet
    category and the stake it was called with. *)
Theorem baccarat_deals_distinct_cards
    (shuffleArray : Shuffle) (e e' : Engine) (playerId tid : string)
    (table : TableGame) (side side' : Side) (stake stake' payout : Q)
    (result : BaccaratResult) :
  IsShuffle shuffleArray ->
  tables !! tid = Some table -> type table = baccarat ->
  playBaccarat shuffleArray e playerId tid side stake
  = Returns (BaccaratOutcome result payout side' stake', e') ->
  NoDup (cards (playerHand result) ++ cards (bankerHand result)) /\
  Forall (fun card => exists c, card = Some c /\ c ∈ createDeck shuffleArray)
         (cards (playerHand result) ++ cards (bankerHand result)) /\
  (2 <= length (cards (playerHand result)) <= 3)%nat /\
  (2 <= length (cards (bankerHand result)) <= 3)%nat /\
  side' = side /\ stake' = stake.
Proof.
  intros Hshuffle Htable Htype.
  destruct (playBaccarat_round shuffleArray e playerId tid table side stake
              Hshuffle Htable Htype)
    as (rest & c6 & c5 & b2 & b1 & p2 & p1 & pcs & bcs
        & Hdeck & Hnat & Hdraw & Hstand & ->).
  cbv zeta. intros [= <- _ <- <- _]. cbn [cards playerHand bankerHand].
  pose proof (createDeck_NoDup shuffleArray Hshuffle) as Hnodup.
  rewrite Hdeck in Hnodup. apply six_distinct in Hnodup.
  assert (Hin : forall c, c ∈ [p1; p2; c5; b1; b2; c6] -> c ∈ createDeck shuffleArray).
  { intros c Hc. rewrite Hdeck, <- !app_assoc. cbn [app].
    apply elem_of_app. right. rewrite !elem_of_cons in *. tauto. }
  rewrite <- fmap_app.
  assert (Hsub : NoDup (pcs ++ bcs) /\
                 (forall c, c ∈ pcs ++ bcs -> c ∈ [p1; p2; c5; b1; b2; c6]) /\
                 (2 <= length pcs <= 3)%nat /\ (2 <= length bcs <= 3)%nat).
  { rewrite !NoDup_cons, !not_elem_of_cons in Hnodup.
    destruct Hnodup as ((H12 & H15 & H1a & H1b & H16 & _) & (H25 & H2a & H2b & H26 & _)
                        & (H5a & H5b & H56 & _) & (Hab & Ha6 & _) & (Hb6 & _) & _).
    destruct (baccarat_shapes p1 p2 b1 b2 c5 c6 pcs bcs Hnat Hdraw Hstand)
      as [[-> ->] | [[-> ->] | [[-> ->] | [-> ->]]]]; cbn [app length];
      (split; [| split; [| split; lia]]);
      try (intros c; rewrite !elem_of_cons; tauto);
      rewrite !NoDup_cons, !not_elem_of_cons;
      repeat split; try apply not_elem_of_nil; try apply NoDup_nil_2; congruence. }
  destruct Hsub as (Hnd & Hsubset & Hlp & Hlb).
  split; [apply (NoDup_fmap_2 _); exact Hnd |]. split.
  - apply Forall_fmap, Forall_forall. intros c Hc. exists c. split; [reflexivity |].
    apply Hin, Hsubset, Hc.
  - rewrite !length_fmap. repeat split; lia.
Qed.

Lemma baccarat_deals_distinct_cards_witness :
  NoDup ([Some (mkCard spades R3 3); Some (mkCard spades R2 2);
          Some (mkCard diamonds RK 10)]
         ++ [Some (mkCard clubs R2 2); Some (mkCard clubs RA 11)]).
Proof.
  assert (Hplay :
    playBaccarat stackedShuffle lobby "alice" "baccarat-1" banker 10%Q
    = Returns
        (BaccaratOutcome
           (mkBaccaratResult
              (mkBaccaratHand
                 [Some (mkCard spades R3 3); Some (mkCard spades R2 2);
                  Some (mkCard diamonds RK 10)] 5 false)
              (mkBaccaratHand
                 [Some (mkCard clubs R2 2); Some (mkCard clubs RA 11)] 3 false)
              player)
           0%Q banker 10%Q,
         lobby)) by (vm_compute; reflexivity).
  exact (proj1 (baccarat_deals_distinct_cards stackedShuffle lobby lobby "alice"
                  "baccarat-1" baccaratTable banker banker 10%Q 10%Q 0%Q _
                  stackedShuffle_IsShuffle ltac:(vm_compute; reflexivity) eq_refl Hplay)).
Defined.

(** X21. A natural ends the round: when the outcome flags either hand as
    natural, both hands have exactly two cards and the flagged hand's value
    is 8 or 9; when neither hand is flagged and neither drew, both values
    are 6 or 7. *)
Theorem baccarat_natural_stops_round
    (shuffleArray : Shuffle) (e e' : Engine) (playerId tid : string)
    (table : TableGame) (side side' : Side) (stake stake' payout : Q)
    (result : BaccaratResult) :
  IsShuffle shuffleArray ->
  tables !! tid = Some table -> type table = baccarat ->
  playBaccarat shuffleArray e playerId tid side stake
  = Returns (BaccaratOutcome result payout side' stake', e') ->
  (isNatural (playerHand result) = true \/ isNatural (bankerHand result) = true ->
   length (cards (playerHand result)) = 2%nat /\
   length (cards (bankerHand result)) = 2%nat) /\
  (isNatural (playerHand result) = true -> 8 <= handValue (playerHand result) <= 9) /\
  (isNatural (bankerHand result) = true -> 8 <= handValue (bankerHand result) <= 9) /\
  (isNatural (playerHand result) = false -> isNatural (bankerHand result) = false ->
   length (cards (playerHand result)) = 2%nat ->
   length (cards (bankerHand result)) = 2%nat ->
   6 <= handValue (playerHand result) <= 7 /\
   6 <= handValue (bankerHand result) <= 7).
Proof.
  intros Hshuffle Htable Htype.
  destruct (playBaccarat_round shuffleArray e playerId tid table side stake
              Hshuffle Htable Htype)
    as (rest & c6 & c5 & b2 & b1 & p2 & p1 & pcs & bcs
        & Hdeck & Hnat & Hdraw & Hstand & ->).
  cbv zeta. intros [= <- _ _ _ _].
  cbn [cards playerHand bankerHand isNatural handValue].
  rewrite !Z.leb_le, !Z.leb_gt, !length_fmap.
  pose proof (calculateBaccaratValue_range [p1; p2]) as Rp.
  pose proof (calculateBaccaratValue_range [b1; b2]) as Rb.
  split; [| split; [| split]].
  - intros H. destruct (Hnat H) as [-> ->]. split; reflexivity.
  - intros H. destruct (Hnat (or_introl H)) as [-> _]. lia.
  - intros H. destruct (Hnat (or_intror H)) as [_ ->]. lia.
  - intros Hp Hb Hlp Hlb.
    destruct (decide (calculateBaccaratValue [p1; p2] <= 5)) as [H5|H6].
    + destruct (Hdraw Hp Hb H5) as (-> & _). discriminate Hlp.
    + destruct (Hstand Hp Hb ltac:(lia)) as (-> & Hyes & Hno).
      destruct (decide (calculateBaccaratValue [b1; b2] <= 5)) as [Hb5|Hb6].
      * rewrite (Hyes Hb5) in Hlb. discriminate Hlb.
      * rewrite (Hno ltac:(lia)). lia.
Qed.

Lemma baccarat_natural_stops_round_witness :
  length [Some (mkCard hearts R5 5); Some (mkCard hearts R4 4)] = 2%nat /\
  length [Some (mkCard hearts R3 3); Some (mkCard hearts R2 2)] = 2%nat.
Proof.
  assert (Hcut : IsShuffle (fun l => drop 5 l ++ take 5 l)).
  { intros l. rewrite Permutation_app_comm, take_drop. reflexivity. }
  assert (Hplay :
    playBaccarat (fun l => drop 5 l ++ take 5 l) lobby "alice" "baccarat-1" tie 10%Q
    = Returns
        (BaccaratOutcome
           (mkBaccaratResult
              (mkBaccaratHand
                 [Some (mkCard hearts R5 5); Some (mkCard hearts R4 4)] 9 true)
              (mkBaccaratHand
                 [Some (mkCard hearts R3 3); Some (mkCard hearts R2 2)] 5 false)
              player)
           0%Q tie 10%Q,
         lobby)) by (vm_compute; reflexivity).
  apply (proj1 (baccarat_natural_stops_round _ lobby lobby "alice" "baccarat-1"
                  baccaratTable tie tie 10%Q 10%Q 0%Q _ Hcut
                  ltac:(vm_compute; reflexivity) eq_refl Hplay)).
  left. reflexivity.
Defined.

(** X22. The third-card rules as [playBaccarat] applies them. Each hand
    starts with two cards and takes at most one more. Without a natural the
    player draws exactly when the player's two cards count 5 or less; a
    banker facing a player who stood draws exactly when the banker's own two
    cards count 5 or less; a banker facing a player who drew draws exactly
    when [shouldBankerDrawThird] says so of the banker's two-card value and
    the [value] field of the player's third card. *)
Theorem baccarat_third_card_rules
    (shuffleArray : Shuffle) (e e' : Engine) (playerId tid : string)
    (table : TableGame) (side side' : Side) (stake stake' payout : Q)
    (result : BaccaratResult) :
  IsShuffle shuffleArray ->
  tables !! tid = Some table -> type table = baccarat ->
  playBaccarat shuffleArray e playerId tid side stake
  = Returns (BaccaratOutcome result payout side' stake', e') ->
  exists p1 p2 b1 b2 ptail btail,
    cards (playerHand result) = Some p1 :: Some p2 :: (Some <$> ptail) /\
    cards (bankerHand result) = Some b1 :: Some b2 :: (Some <$> btail) /\
    (length ptail <= 1)%nat /\ (length btail <= 1)%nat /\
    isNatural (playerHand result) = (8 <=? calculateBaccaratValue [p1; p2]) /\
    isNatural (bankerHand result) = (8 <=? calculateBaccaratValue [b1; b2]) /\
    (ptail <> [] <->
     calculateBaccaratValue [p1; p2] <= 5 /\ calculateBaccaratValue [b1; b2] < 8) /\
    (ptail = [] ->
     (btail <> [] <->
      calculateBaccaratValue [p1; p2] < 8 /\ calculateBaccaratValue [b1; b2] <= 5)) /\
    (forall third, ptail = [third] ->
     (btail <> [] <->
      shouldBankerDrawThird (calculateBaccaratValue [b1; b2]) (value third) = true)).
Proof.
  intros Hshuffle Htable Htype.
  destruct (playBaccarat_round shuffleArray e playerId tid table side stake
              Hshuffle Htable Htype)
    as (rest & c6 & c5 & b2 & b1 & p2 & p1 & pcs & bcs
        & Hdeck & Hnat & Hdraw & Hstand & ->).
  cbv zeta. intros [= <- _ _ _ _].
  cbn [cards playerHand bankerHand isNatural handValue].
  exists p1, p2, b1, b2.
  destruct (decide (8 <= calculateBaccaratValue [p1; p2])) as [Hp|Hp].
  { destruct (Hnat (or_introl Hp)) as [-> ->]. exists [], [].
    repeat split; try reflexivity; try (simpl; lia); try congruence;
      try (intros; lia); try discriminate. }
  destruct (decide (8 <= calculateBaccaratValue [b1; b2])) as [Hb|Hb].
  { destruct (Hnat (or_intror Hb)) as [-> ->]. exists [], [].
    repeat split; try reflexivity; try (simpl; lia); try congruence;
      try (intros; lia); try discriminate. }
  destruct (decide (calculateBaccaratValue [p1; p2] <= 5)) as [H5|H6].
  - destruct (Hdraw ltac:(lia) ltac:(lia) H5) as (-> & Hyes & Hno).
    destruct (shouldBankerDrawThird (calculateBaccaratValue [b1; b2]) (value c5))
      eqn:Edraw.
    + rewrite (Hyes eq_refl). exists [c5], [c6].
      repeat split; try reflexivity; try (simpl; lia); try congruence;
        try (intros; lia); try discriminate.
    + rewrite (Hno eq_refl). exists [c5], [].
      repeat split; try reflexivity; try (simpl; lia); try congruence;
        try (intros; lia); try discriminate.
  - destruct (Hstand ltac:(lia) ltac:(lia) ltac:(lia)) as (-> & Hyes & Hno).
    destruct (decide (calculateBaccaratValue [b1; b2] <= 5)) as [Hb5|Hb6].
    + rewrite (Hyes Hb5). exists [], [c5].
      repeat split; try reflexivity; try (simpl; lia); try congruence;
        try (intros; lia); try discriminate.
    + rewrite (Hno ltac:(lia)). exists [], [].
      repeat split; try reflexivity; try (simpl; lia); try congruence;
        try (intros; lia); try discriminate.
Qed.

Lemma stacked_round :
  playBaccarat stackedShuffle lobby "alice" "baccarat-1" banker 10%Q
  = Returns
      (BaccaratOutcome
         (mkBaccaratResult
            (mkBaccaratHand
               [Some (mkCard spades R3 3); Some (mkCard spades R2 2);
                Some (mkCard diamonds RK 10)] 5 false)
            (mkBaccaratHand
               [Some (mkCard clubs R2 2); Some (mkCard clubs RA 11)] 3 false)
            player)
         0%Q banker 10%Q,
       lobby).
Proof. vm_compute. reflexivity. Qed.

Lemma baccarat_third_card_rules_witness :
  exists p1 p2 ptail,
    [Some (mkCard spades R3 3); Some (mkCard spades R2 2); Some (mkCard diamonds RK 10)]
    = Some p1 :: Some p2 :: (Some <$> ptail) /\
    (length ptail <= 1)%nat.
Proof.
  destruct (baccarat_third_card_rules stackedShuffle lobby lobby "alice" "baccarat-1"
              baccaratTable banker banker 10%Q 10%Q 0%Q _
              stackedShuffle_IsShuffle ltac:(vm_compute; reflexivity) eq_refl
              stacked_round)
    as (p1 & p2 & b1 & b2 & ptail & btail & Hp & _ & Hlen & _).
  exists p1, p2, ptail. split; [exact Hp | exact Hlen].
Defined.

(** X23. The values and the winner of a round: each hand's reported value
    is the baccarat value of its cards and lies between 0 and 9; the winner
    is the player exactly when the player's value is the higher one, the
    banker exactly when the banker's is, and a tie exactly when they are
    equal. *)
Theorem baccarat_values_and_winner
    (shuffleArray : Shuffle) (e e' : Engine) (playerId tid : string)
    (table : TableGame) (side side' : Side) (stake stake' payout : Q)
    (result : BaccaratResult) :
  IsShuffle shuffleArray ->
  tables !! tid = Some table -> type table = baccarat ->
  playBaccarat shuffleArray e playerId tid side stake
  = Returns (BaccaratOutcome result payout side' stake', e') ->
  (exists pcs bcs,
      cards (playerHand result) = Some <$> pcs /\
      cards (bankerHand result) = Some <$> bcs /\
      handValue (playerHand result) = calculateBaccaratValue pcs /\
      handValue (bankerHand result) = calculateBaccaratValue bcs) /\
  0 <= handValue (playerHand result) <= 9 /\
  0 <= handValue (bankerHand result) <= 9 /\
  (winner result = player
   <-> handValue (bankerHand result) < handValue (playerHand result)) /\
  (winner result = banker
   <-> handValue (playerHand result) < handValue (bankerHand result)) /\
  (winner result = tie
   <-> handValue (playerHand result) = handValue (bankerHand result)).
Proof.
  intros Hshuffle Htable Htype.
  destruct (playBaccarat_round shuffleArray e playerId tid table side stake
              Hshuffle Htable Htype)
    as (rest & c6 & c5 & b2 & b1 & p2 & p1 & pcs & bcs
        & Hdeck & Hnat & Hdraw & Hstand & ->).
  cbv zeta. intros [= <- _ _ _ _].
  cbn [cards playerHand bankerHand handValue winner].
  split; [exists pcs, bcs; repeat split |].
  split; [apply calculateBaccaratValue_range |].
  split; [apply calculateBaccaratValue_range |].
  destruct (calculateBaccaratValue bcs <? calculateBaccaratValue pcs) eqn:E1;
    [| destruct (calculateBaccaratValue pcs <? calculateBaccaratValue bcs) eqn:E2];
    rewrite ?Z.ltb_lt, ?Z.ltb_ge in *;
    repeat split; intros; first [reflexivity | discriminate | lia].
Qed.

Lemma baccarat_values_and_winner_witness :
  winner
    (mkBaccaratResult
       (mkBaccaratHand
          [Some (mkCard spades R3 3); Some (mkCard spades R2 2);
           Some (mkCard diamonds RK 10)] 5 false)
       (mkBaccaratHand
          [Some (mkCard clubs R2 2); Some (mkCard clubs RA 11)] 3 false)
       player) = player
  <-> 3 < 5.
Proof.
  destruct (baccarat_values_and_winner stackedShuffle lobby lobby "alice" "baccarat-1"
              baccaratTable banker banker 10%Q 10%Q 0%Q _
              stackedShuffle_IsShuffle ltac:(vm_compute; reflexivity) eq_refl
              stacked_round)
    as (_ & _ & _ & Hplayer & _).
  exact Hplayer.
Defined.



(** ** Dispatch *)

(** X25. [processAction] answers "Unknown game type" exactly for the actions
    that [validateAction] rejects, and then leaves the engine as it was; an
    action of a known game type is answered by that game alone. *)
Theorem processAction_agrees_with_validateAction
    (shuffleArray : Shuffle) (n : Z) (e : Engine) (playerId : string)
    (action : Action) :
  (validateAction playerId action = false <->
   processAction shuffleArray n e playerId action
   = Returns (ActionFailure "Unknown game type", e)) /\
  (forall msg e',
     processAction shuffleArray n e playerId action = Returns (ActionFailure msg, e') ->
     validateAction playerId action = false) /\
  (forall r e',
     processAction shuffleArray n e playerId action = Returns (RouletteReply r, e') ->
     a_gameType action = "roulette"%string /\
     playRoulette n e playerId (a_tableId action) (a_bets action) = (r, e')) /\
  (forall r e',
     processAction shuffleArray n e playerId action = Returns (BlackjackReply r, e') ->
     a_gameType action = "blackjack"%string /\
     playBlackjack shuffleArray e playerId (a_tableId action) (a_action action)
       (a_bet action) = Returns (r, e')) /\
  (forall r e',
     processAction shuffleArray n e playerId action = Returns (BaccaratReply r, e') ->
     a_gameType action = "baccarat"%string /\
     playBaccarat shuffleArray e playerId (a_tableId action) (a_betType action)
       (a_amount action) = Returns (r, e')).
Proof.
  unfold validateAction, processAction, includes.
  destruct (String.eqb_spec (a_gameType action) "blackjack") as [Hb | Hb].
  { rewrite Hb.
    destruct (playBlackjack _ _ _ _ _ _) as [[r1 e1]|]; cbn [mbind Completion_bind];
      repeat split; try discriminate; try (intros; discriminate);
      try (intros H; exfalso; revert H; rewrite bool_decide_eq_true_2; [discriminate | by_decision]);
      try (intros ? ? [= <- <-]; split; reflexivity); try congruence. }
  destruct (String.eqb_spec (a_gameType action) "roulette") as [Hr | Hr].
  { rewrite Hr.
    destruct (playRoulette _ _ _ _ _) as [r1 e1];
      repeat split; try discriminate; try (intros; discriminate);
      try (intros H; exfalso; revert H; rewrite bool_decide_eq_true_2; [discriminate | by_decision]);
      try (intros ? ? [= <- <-]; split; reflexivity); try congruence. }
  destruct (String.eqb_spec (a_gameType action) "baccarat") as [Hc | Hc].
  { rewrite Hc.
    destruct (playBaccarat _ _ _ _ _ _) as [[r1 e1]|]; cbn [mbind Completion_bind];
      repeat split; try discriminate; try (intros; discriminate);
      try (intros H; exfalso; revert H; rewrite bool_decide_eq_true_2; [discriminate | by_decision]);
      try (intros ? ? [= <- <-]; split; reflexivity); try congruence. }
  assert (Hout : bool_decide
            (a_gameType action ∈ ["blackjack"; "roulette"; "baccarat"]%string) = false).
  { apply bool_decide_eq_false_2. rewrite !elem_of_cons. intros [H | [H | [H | H]]];
      try contradiction. now apply elem_of_nil in H. }
  rewrite Hout. repeat split; try discriminate; intros; discriminate.
Qed.

Lemma processAction_agrees_with_validateAction_witness :
  processAction (fun l => l) 0 lobby "alice"
    (mkAction "poker" "blackjack-1" "bet" (Some 10%Q) [] player 10%Q)
  = Returns (ActionFailure "Unknown game type", lobby).
Proof.
  apply (proj1 (proj1 (processAction_agrees_with_validateAction (fun l => l) 0 lobby
                         "alice"
                         (mkAction "poker" "blackjack-1" "bet" (Some 10%Q) [] player 10%Q)))).
  vm_compute. reflexivity.
Defined.

(** ** Thumbnail file names *)

Lemma hexString_cons c s :
  hexString (String c s) = true ->
  c <> "."%char /\ c <> "/"%char /\ hexString s = true.
Proof.
  cbn [hexString]. rewrite andb_true_iff. intros [Hc Hs].
  repeat split; [| | exact Hs]; intros ->; discriminate Hc.
Qed.

(** X26. The file names of the thumbnail cache can be served and lead back
    to their key: for a cache key of hexadecimal digits and any content type,
    the name [downloadThumbnail] writes (key, then extension) passes the file
    name test of [serveThumbnail], and its part before the first dot, by
    which [serveThumbnail] and [cleanupExpiredCache] look up the cache, is
    the key. The four allowed content types have four different extensions,
    and every other content type gets ".jpg". *)
Theorem thumbnail_filename_round_trip (cacheKey contentType : string) :
  hexString cacheKey = true ->
  invalidFilename (thumbnailFilename cacheKey contentType) = false /\
  cacheKeyOf (thumbnailFilename cacheKey contentType) = cacheKey /\
  getExtensionFromContentType contentType ∈ [".jpg"; ".png"; ".webp"; ".gif"]%string /\
  (contentType ∉ ALLOWED_FORMATS -> getExtensionFromContentType contentType = ".jpg"%string) /\
  (forall other, contentType ∈ ALLOWED_FORMATS -> other ∈ ALLOWED_FORMATS ->
     getExtensionFromContentType contentType = getExtensionFromContentType other ->
     contentType = other).
Proof.
  intros Hhex.
  assert (Hext : getExtensionFromContentType contentType
                 ∈ [".jpg"; ".png"; ".webp"; ".gif"]%string).
  { unfold getExtensionFromContentType.
    repeat (match goal with |- context [String.eqb ?a ?b] => destruct (String.eqb a b) end);
      by_decision. }
  assert (Hname : forall ext, ext ∈ [".jpg"; ".png"; ".webp"; ".gif"]%string ->
    String.eqb (cacheKey ++ ext) "" = false /\
    includesString ".." (cacheKey ++ ext) = false /\
    includesString "/" (cacheKey ++ ext) = false /\
    cacheKeyOf (cacheKey ++ ext) = cacheKey).
  { intros ext Hin. rewrite !elem_of_cons in Hin.
    induction cacheKey as [|c key IH].
    - destruct Hin as [-> | [-> | [-> | [-> | H]]]]; [| | | | now apply elem_of_nil in H];
        repeat split; reflexivity.
    - apply hexString_cons in Hhex as (Hdot & Hslash & Hkey).
      destruct (IH Hkey) as (_ & Hdots & Hsl & Hcut).
      change (String c key +:+ ext)%string with (String c (key +:+ ext)).
      cbn [includesString String.prefix cacheKeyOf String.eqb].
      rewrite Hdots, Hsl, Hcut.
      destruct (ascii_dec "." c) as [Heq | _]; [now symmetry in Heq |].
      destruct (ascii_dec "/" c) as [Heq | _]; [now symmetry in Heq |].
      apply Ascii.eqb_neq in Hdot. rewrite Hdot.
      repeat split; reflexivity. }
  destruct (Hname _ Hext) as (Hne & Hdots & Hsl & Hcut).
  split; [unfold invalidFilename, thumbnailFilename; now rewrite Hne, Hdots, Hsl |].
  split; [exact Hcut |]. split; [exact Hext |]. split.
  - unfold ALLOWED_FORMATS, getExtensionFromContentType.
    rewrite !not_elem_of_cons. intros (H1 & H2 & H3 & H4 & _).
    apply String.eqb_neq in H1, H2, H3, H4. now rewrite H1, H2, H3, H4.
  - unfold ALLOWED_FORMATS. intros other H1 H2. rewrite !elem_of_cons in H1, H2.
    destruct H1 as [-> | [-> | [-> | [-> | H1]]]]; [| | | | now apply elem_of_nil in H1];
      destruct H2 as [-> | [-> | [-> | [-> | H2]]]];
      try (now apply elem_of_nil in H2); try reflexivity; discriminate.
Qed.

Lemma thumbnail_filename_round_trip_witness :
  cacheKeyOf (thumbnailFilename "9e107d9d372bb6826bd81d3542a419d6" "image/webp")
  = "9e107d9d372bb6826bd81d3542a419d6"%string.
Proof.
  apply (proj1 (proj2 (thumbnail_filename_round_trip
                         "9e107d9d372bb6826bd81d3542a419d6" "image/webp" eq_refl))).
Defined.
